(** * github-agent: the GitHub -> Feishu webhook relay of [main.js]

    A shallow embedding of [main.js]: the signature check
    [verifyGitHubSignature], the outbound signing [feishuSign], the two
    senders [sendFeishuText] / [sendFeishuPost] and the handler of
    [POST /github/webhook], followed by the properties of the specification
    that were checked against them.

    Conventions of the embedding.
    - A JavaScript string is the list of its UTF-16 code units ([jstr]);
      a [Buffer] is the list of its bytes ([bytes]).  Both are lists of [N].
    - Values that reach the handler are JSON values, [undefined], and what
      a property lookup finds on a prototype chain (see [value]).  A number
      is known by what the handler does with it: its text and whether it is
      zero.
    - A request has the body that [express.raw] has captured, or none (see
      [captured]).
    - An exception is the outcome [Throw]: property access on [null] and
      [undefined], the conversion to a string of an object that has a
      [toString] of its own, the library calls that raise.  What the handler
      does to the outside world (console, response, outbound POST) is a list
      of [effect]s in the order in which they happen.
    - The libraries of the platform that the source calls are either written
      out ([Buffer.from], [digest("hex")], [digest("base64")], HMAC-SHA256) or
      taken from outside: [JSON.parse] is a parameter of the handler, the
      clock and the answer of the downstream webhook are the [world] of a
      run. *)

From Stdlib Require Import NArith ZArith List Ascii String DecimalString Lia.
From stdpp Require Import base decidable option list countable gmap.
Import ListNotations.

Local Open Scope N_scope.

(** ** Strings and buffers *)

Abbreviation code_unit := N (only parsing).
Abbreviation jstr := (list N) (only parsing).
Abbreviation bytes := (list N) (only parsing).

(** A string literal of the source that holds ASCII characters only. *)
Definition lit (s : string) : jstr :=
  map N_of_ascii (list_ascii_of_string s).

(** The line feed of the template literals. *)
Definition LF : jstr := [10].

Definition is_ascii (s : jstr) : Prop := Forall (fun u => u < 128) s.

(** [Buffer.from(s)], that is, the UTF-8 encoding of a string: one byte below
    U+0080, two below U+0800, four for a surrogate pair, the three bytes of
    U+FFFD for a surrogate that stands alone, and three otherwise. *)
Definition is_high_surrogate (u : N) : bool := (0xD800 <=? u) && (u <=? 0xDBFF).
Definition is_low_surrogate (u : N) : bool := (0xDC00 <=? u) && (u <=? 0xDFFF).

Definition utf8_3 (u : N) : bytes :=
  [224 + u / 4096; 128 + (u / 64) mod 64; 128 + u mod 64].

Definition utf8_4 (c : N) : bytes :=
  [240 + c / 262144; 128 + (c / 4096) mod 64; 128 + (c / 64) mod 64; 128 + c mod 64].

Fixpoint Buffer_from (s : jstr) : bytes :=
  match s with
  | [] => []
  | u :: rest =>
      if u <? 0x80 then u :: Buffer_from rest
      else if u <? 0x800 then [192 + u / 64; 128 + u mod 64] ++ Buffer_from rest
      else if is_high_surrogate u then
        match rest with
        | v :: rest' =>
            if is_low_surrogate v
            then utf8_4 (0x10000 + (u - 0xD800) * 1024 + (v - 0xDC00)) ++ Buffer_from rest'
            else [0xEF; 0xBF; 0xBD] ++ Buffer_from rest
        | [] => [0xEF; 0xBF; 0xBD]
        end
      else if is_low_surrogate u then [0xEF; 0xBF; 0xBD] ++ Buffer_from rest
      else utf8_3 u ++ Buffer_from rest
  end.

(** [digest("hex")]: two lowercase hexadecimal digits per byte. *)
Definition hex_digit (n : N) : N :=
  if n <? 10 then 48 + n else 87 + n.

Definition hex (bs : bytes) : jstr :=
  flat_map (fun b => [hex_digit ((b / 16) mod 16); hex_digit (b mod 16)]) bs.

(** [digest("base64")]: the standard alphabet, padded with [=]. *)
Definition base64_char (n : N) : N :=
  if n <? 26 then 65 + n
  else if n <? 52 then 71 + n
  else if n <? 62 then n - 4
  else if n =? 62 then 43 else 47.

Fixpoint base64 (bs : bytes) : jstr :=
  match bs with
  | [] => []
  | [b0] =>
      [base64_char (b0 / 4); base64_char ((b0 mod 4) * 16); 61; 61]
  | [b0; b1] =>
      [base64_char (b0 / 4); base64_char ((b0 mod 4) * 16 + b1 / 16);
       base64_char ((b1 mod 16) * 4); 61]
  | b0 :: b1 :: b2 :: rest =>
      [base64_char (b0 / 4); base64_char ((b0 mod 4) * 16 + b1 / 16);
       base64_char ((b1 mod 16) * 4 + b2 / 64); base64_char (b2 mod 64)]
      ++ base64 rest
  end.

(** [n.toString()] for an integer. *)
Definition decimal (z : Z) : jstr :=
  lit (NilZero.string_of_int (Z.to_int z)).

(** ** HMAC-SHA256 ([crypto.createHmac("sha256", key)]) *)

Module SHA256.

Definition word (x : N) : N := x mod 2 ^ 32.
Definition add (x y : N) : N := word (x + y).
Definition rotr (n x : N) : N := N.lor (N.shiftr x n) (word (N.shiftl x (32 - n))).
Definition shr (n x : N) : N := N.shiftr x n.
Definition not32 (x : N) : N := 0xFFFFFFFF - word x.

Definition ch (x y z : N) : N := N.lxor (N.land x y) (N.land (not32 x) z).
Definition maj (x y z : N) : N :=
  N.lxor (N.lxor (N.land x y) (N.land x z)) (N.land y z).
Definition bsig0 x := N.lxor (N.lxor (rotr 2 x) (rotr 13 x)) (rotr 22 x).
Definition bsig1 x := N.lxor (N.lxor (rotr 6 x) (rotr 11 x)) (rotr 25 x).
Definition ssig0 x := N.lxor (N.lxor (rotr 7 x) (rotr 18 x)) (shr 3 x).
Definition ssig1 x := N.lxor (N.lxor (rotr 17 x) (rotr 19 x)) (shr 10 x).

(** The constants of FIPS 180-4 by their definition: the first 32 bits of the
    fractional parts of the cube roots of the first 64 primes (the round
    constants) and of the square roots of the first 8 primes (the initial
    chaining words). *)
Definition is_prime (n : N) : bool :=
  (1 <? n) && forallb (fun d => negb (n mod N.of_nat d =? 0)) (seq 2 (N.to_nat n - 2)).

Definition first_primes (count : nat) : list N :=
  firstn count (filter is_prime (map N.of_nat (seq 2 400))).

(** [root k bits n r]: the largest number whose [k]-th power is at most [n],
    among those that extend [r] in the lowest [bits] bits. *)
Fixpoint root (k : N) (bits : nat) (n r : N) : N :=
  match bits with
  | O => r
  | S b =>
      let candidate := r + 2 ^ N.of_nat b in
      root k b n (if candidate ^ k <=? n then candidate else r)
  end.

Definition fractional_bits (k p : N) : N := word (root k 40 (p * 2 ^ (32 * k)) 0).

Definition round_constants : list N :=
  Eval vm_compute in map (fractional_bits 3) (first_primes 64).

(** The eight chaining words. *)
Record chain := Chain { cA : N; cB : N; cC : N; cD : N; cE : N; cF : N; cG : N; cH : N }.

Definition initial : chain :=
  Eval vm_compute in
    match map (fractional_bits 2) (first_primes 8) with
    | [a; b; c; d; e; f; g; h] => Chain a b c d e f g h
    | _ => Chain 0 0 0 0 0 0 0 0
    end.

Example first_round_constant : nth 0 round_constants 0 = 0x428a2f98.
Proof. reflexivity. Qed.

Example last_round_constant : nth 63 round_constants 0 = 0xc67178f2.
Proof. reflexivity. Qed.

Example first_chaining_word : cA initial = 0x6a09e667.
Proof. reflexivity. Qed.

Definition be32 (b0 b1 b2 b3 : N) : N := ((b0 * 256 + b1) * 256 + b2) * 256 + b3.

Fixpoint words_of (bs : bytes) : list N :=
  match bs with
  | b0 :: b1 :: b2 :: b3 :: rest => be32 b0 b1 b2 b3 :: words_of rest
  | _ => []
  end.

(** The message schedule, latest word first: [extend n ws] adds [n] words to
    the reversed schedule [ws]. *)
Fixpoint extend (n : nat) (ws : list N) : list N :=
  match n with
  | O => ws
  | S n' =>
      let at_ i := nth i ws 0 in
      extend n' (add (add (add (ssig1 (at_ 1%nat)) (at_ 6%nat)) (ssig0 (at_ 14%nat))) (at_ 15%nat) :: ws)
  end.

Definition schedule (block : bytes) : list N :=
  rev (extend 48 (rev (words_of block))).

Definition round (c : chain) (kw : N * N) : chain :=
  let '(Chain a b c0 d e f g h) := c in
  let t1 := add (add (add (add h (bsig1 e)) (ch e f g)) (fst kw)) (snd kw) in
  let t2 := add (bsig0 a) (maj a b c0) in
  Chain (add t1 t2) a b c0 (add d t1) e f g.

Definition compress (c : chain) (block : bytes) : chain :=
  let '(Chain a b c0 d e f g h) :=
    fold_left round (combine round_constants (schedule block)) c in
  Chain (add (cA c) a) (add (cB c) b) (add (cC c) c0) (add (cD c) d)
        (add (cE c) e) (add (cF c) f) (add (cG c) g) (add (cH c) h).

Fixpoint blocks (fuel : nat) (c : chain) (bs : bytes) : chain :=
  match fuel, bs with
  | S fuel', _ :: _ => blocks fuel' (compress c (firstn 64 bs)) (skipn 64 bs)
  | _, _ => c
  end.

Fixpoint big_endian (n : nat) (x : N) : bytes :=
  match n with
  | O => []
  | S n' => big_endian n' (x / 256) ++ [x mod 256]
  end.

Definition pad (msg : bytes) : bytes :=
  let len := N.of_nat (length msg) in
  msg ++ [0x80] ++ repeat 0 (N.to_nat ((119 - len mod 64) mod 64))
      ++ big_endian 8 (8 * len).

Definition digest (msg : bytes) : bytes :=
  let p := pad msg in
  let '(Chain a b c d e f g h) := blocks (length p) initial p in
  flat_map (big_endian 4) [a; b; c; d; e; f; g; h].

End SHA256.

(** HMAC (RFC 2104) with SHA-256, whose block is 64 bytes long. *)
Definition hmac_key_block (key : bytes) : bytes :=
  let k := if (64 <? N.of_nat (length key)) then SHA256.digest key else key in
  k ++ repeat 0 (64 - length k)%nat.

Definition HMAC_SHA256 (key msg : bytes) : bytes :=
  let k := hmac_key_block key in
  SHA256.digest (map (N.lxor 0x5c) k ++ SHA256.digest (map (N.lxor 0x36) k ++ msg)).

Example sha256_abc :
  hex (SHA256.digest (lit "abc"))
  = lit "ba7816bf8f01cfea414140de5dae2223b00361a396177a9cb410ff61f20015ad".
Proof. vm_compute. reflexivity. Qed.

Example sha256_empty :
  hex (SHA256.digest [])
  = lit "e3b0c44298fc1c149afbf4c8996fb92427ae41e4649b934ca495991b7852b855".
Proof. vm_compute. reflexivity. Qed.

(** RFC 4231, test case 2. *)
Example hmac_rfc4231_2 :
  hex (HMAC_SHA256 (lit "Jefe") (lit "what do ya want for nothing?"))
  = lit "5bdcc146bf60754e6a042426089575c75a003f089d2739839dec58b964ec3843".
Proof. vm_compute. reflexivity. Qed.

(** The vector of GitHub's webhook documentation. *)
Example hmac_github_docs :
  hex (HMAC_SHA256 (lit "It's a Secret to Everybody") (lit "Hello, World!"))
  = lit "757107ea0eb2509fc211221cce984b8a37570b6d7586c22c46f4379c8b043e17".
Proof. vm_compute. reflexivity. Qed.

Local Close Scope N_scope.

(** ** Values *)

#[local] Set Warnings "-register-all".

Inductive error : Type :=
| TypeError
| RangeError
| SyntaxError
| Error (message : jstr).

Inductive result (A : Type) : Type :=
| Ok (a : A)
| Throw (e : error).
Arguments Ok {A} a.
Arguments Throw {A} e.

Definition is_Ok {A} (r : result A) : bool :=
  match r with
  | Ok _ => true
  | Throw _ => false
  end.

(** A number, by the two things the handler does with one: [String(x)] and
    [!x] (a number that [JSON.parse] returns is falsy when it is zero; the
    sign of a zero shows in neither). *)
Record number : Type := Number { number_text : jstr; number_zero : bool }.

(** An integer below 10^21 in absolute value, which prints in full. *)
Definition int (z : Z) : number := Number (decimal z) (z =? 0)%Z.

(** What [JSON.parse] returns; an object is the list of its own
    properties. *)
Inductive json : Type :=
| JNull
| JBool (b : bool)
| JNum (n : number)
| JStr (s : jstr)
| JArr (items : list json)
| JObj (fields : list (jstr * json)).

(** The prototypes of the values that are no plain objects. *)
Inductive intrinsic : Set :=
| Boolean_prototype | Number_prototype | String_prototype | Array_prototype.

(** The values the handler meets: JSON values, [undefined], and what a lookup
    [m[key]] finds on the prototype chain when [m] has no such property of its
    own: a built-in function, [Object.prototype] itself (at the key
    [__proto__] of a plain object), or the prototype of a boolean, a number, a
    string or an array (at the key [__proto__] of such a value). *)
Inductive value : Type :=
| undefined
| J (j : json)
| builtin (name : jstr)
| Object_prototype
| prototype_of (p : intrinsic).

Definition str (s : jstr) : value := J (JStr s).

(** ToBoolean. *)
Definition truthy (v : value) : bool :=
  match v with
  | undefined | J JNull | J (JBool false) | J (JStr []) => false
  | J (JNum n) => negb (number_zero n)
  | _ => true
  end.

(** [a || b]. *)
Definition or_else (a b : value) : value := if truthy a then a else b.

Fixpoint join (sep : jstr) (parts : list jstr) : jstr :=
  match parts with
  | [] => []
  | [p] => p
  | p :: rest => p ++ sep ++ join sep rest
  end.

(** The results of a list of computations, or the first error. *)
Fixpoint all_results {A} (rs : list (result A)) : result (list A) :=
  match rs with
  | [] => Ok []
  | Throw e :: _ => Throw e
  | Ok a :: rest =>
      match all_results rest with
      | Ok l => Ok (a :: l)
      | Throw e => Throw e
      end
  end.

Definition has_own (fields : list (jstr * json)) (k : jstr) : bool :=
  existsb (fun kv => bool_decide (kv.1 = k)) fields.

(** [String(v)], as a template literal and a computed property key apply it.
    An object is converted through its [toString] and then its [valueOf]:
    the inherited [toString] gives [[object Object]]; a [toString] of the
    object's own, which in a JSON value is never a function, is passed over,
    [valueOf] gives no primitive, and the conversion raises a [TypeError].
    An array joins the conversions of its items, [null] counting as the
    empty string. *)
Fixpoint json_to_string (j : json) : result jstr :=
  match j with
  | JNull => Ok (lit "null")
  | JBool b => Ok (if b then lit "true" else lit "false")
  | JNum n => Ok (number_text n)
  | JStr s => Ok s
  | JArr items =>
      match all_results
              (map (fun x => match x with JNull => Ok [] | _ => json_to_string x end) items)
      with
      | Ok parts => Ok (join (lit ",") parts)
      | Throw e => Throw e
      end
  | JObj fields =>
      if has_own fields (lit "toString") then Throw TypeError
      else Ok (lit "[object Object]")
  end.

Definition to_string (v : value) : result jstr :=
  match v with
  | undefined => Ok (lit "undefined")
  | J j => json_to_string j
  | builtin name => Ok (lit "function " ++ name ++ lit "() { [native code] }")
  | Object_prototype => Ok (lit "[object Object]")
  | prototype_of Boolean_prototype => Ok (lit "false")
  | prototype_of Number_prototype => Ok (lit "0")
  | prototype_of String_prototype | prototype_of Array_prototype => Ok []
  end.

(** [v === "s"] for a string literal. *)
Definition is_str (v : value) (s : jstr) : bool :=
  match v with
  | J (JStr t) => bool_decide (t = s)
  | _ => false
  end.

(** *** Property access *)

(** The property names that the source writes after a dot. *)
Module Key.
Inductive t : Set :=
| repository | full_name | action | issue | user | login | number | title
| html_url | sender | comment | body | id | name.

Definition text (k : t) : jstr :=
  lit match k with
      | repository => "repository" | full_name => "full_name"
      | action => "action" | issue => "issue" | user => "user"
      | login => "login" | number => "number" | title => "title"
      | html_url => "html_url" | sender => "sender" | comment => "comment"
      | body => "body" | id => "id" | name => "name"
      end.
End Key.

(** The own property [k] of an object, [undefined] when there is none; of a
    key that is listed more than once, the value listed last counts, as it
    does for [JSON.parse]. *)
Definition own_property (fields : list (jstr * json)) (k : jstr) : value :=
  match find (fun kv => bool_decide (kv.1 = k)) (rev fields) with
  | Some kv => J kv.2
  | None => undefined
  end.

(** What a plain object inherits: [o[k]] when [o] has no own property [k]. *)
Definition Object_prototype_functions : list jstr :=
  map lit ["__defineGetter__"; "__defineSetter__"; "hasOwnProperty";
           "__lookupGetter__"; "__lookupSetter__"; "isPrototypeOf";
           "propertyIsEnumerable"; "toString"; "valueOf"; "toLocaleString"]%string.

Definition inherited (k : jstr) : value :=
  if bool_decide (k = lit "constructor") then builtin (lit "Object")
  else if bool_decide (k ∈ Object_prototype_functions) then builtin k
  else if bool_decide (k = lit "__proto__") then Object_prototype
  else undefined.

(** [v.k] for one of the names of [Key.t]: a [TypeError] on [undefined] and
    [null].  None of these names is a property of [Object.prototype], of a
    string, a number, a boolean or an array; a function has a [name]. *)
Definition get (v : value) (k : Key.t) : result value :=
  match v with
  | undefined | J JNull => Throw TypeError
  | J (JObj fields) => Ok (own_property fields (Key.text k))
  | builtin f => Ok match k with Key.name => str f | _ => undefined end
  | _ => Ok undefined
  end.

Example keys_not_inherited : forall k, inherited (Key.text k) = undefined.
Proof. intros k. destruct k; vm_compute; reflexivity. Qed.

(** [v?.k]. *)
Definition get_opt (v : value) (k : Key.t) : value :=
  match get v k with
  | Ok x => x
  | Throw _ => undefined
  end.

(** [o[key]] on a plain object with the own properties [o]: the own
    properties come first, then the prototype. *)
Definition lookup_object (o : gmap jstr json) (key : jstr) : value :=
  match o !! key with
  | Some j => J j
  | None => inherited key
  end.

(** What [JSON.parse(process.env.USER_MAPPING || "{}")] has left in
    [USER_MAPPING]: a plain object, with its own properties, or another value
    ([null], an array, a string, a number, a boolean), of which the embedding
    takes the property lookup as it is given: the value of [m[key]], or
    [None] where the lookup raises a [TypeError], as it does on [null]. *)
Inductive mapping : Type :=
| plain_object (own : gmap jstr json)
| other_value (get_key : jstr -> option value).

Definition lookup_mapping (m : mapping) (key : jstr) : result value :=
  match m with
  | plain_object own => Ok (lookup_object own key)
  | other_value get_key =>
      match get_key key with
      | Some v => Ok v
      | None => Throw TypeError
      end
  end.

(** ** Effects *)

Inductive segment : Type :=
| text_segment (text : jstr)                  (* { tag: "text", text } *)
| a_segment (text : jstr) (href : value)      (* { tag: "a", text, href } *)
| at_segment (user_id user_name : value).     (* { tag: "at", user_id, user_name } *)

(** The [msg_type] and [content] of an outbound payload. *)
Inductive message : Type :=
| msg_text (text : jstr)
| msg_post (title : jstr) (contentLines : list segment).

(** The object that [JSON.stringify] serialises for the downstream webhook. *)
Record outbound : Type := Outbound {
  msg : message;
  timestamp : option jstr;
  sign : option jstr }.

Inductive effect : Type :=
| console_log (args : list value)
| console_error (label : jstr) (err : error)
| respond (status : Z) (text : jstr)              (* res.status(status).send(text) *)
| fetch_post (url : option jstr) (payload : outbound).

(** A computation of the handler: the effects it performed, in order, and
    how it ended. *)
Definition action (A : Type) : Type := list effect * result A.

Definition ret {A} (a : A) : action A := ([], Ok a).

Definition bind {A B} (m : action A) (f : A -> action B) : action B :=
  match m with
  | (t, Ok a) => let '(t', r) := f a in (t ++ t', r)
  | (t, Throw e) => (t, Throw e)
  end.

Definition perform (e : effect) : action unit := ([e], Ok tt).

Definition lift {A} (r : result A) : action A := ([], r).

(** [m.catch(handler)]. *)
Definition catch (m : action unit) (handler : error -> action unit) : action unit :=
  match m with
  | (t, Throw e) => let '(t', r) := handler e in (t ++ t', r)
  | done => done
  end.

Declare Scope action_scope.
Delimit Scope action_scope with action.
Notation "'let*' x := m 'in' k" := (bind m (fun x => k))
  (at level 10, x name, m at level 100, k at level 200) : action_scope.
Notation "m ;; k" := (bind m (fun _ => k))
  (at level 100, k at level 200, right associativity) : action_scope.

(** The pure steps between two effects run in [result]. *)
Definition and_then {A B} (r : result A) (f : A -> result B) : result B :=
  match r with
  | Ok a => f a
  | Throw e => Throw e
  end.

Declare Scope result_scope.
Delimit Scope result_scope with result.
Notation "'let+' x := r 'in' k" := (and_then r (fun x => k))
  (at level 10, x name, r at level 100, k at level 200) : result_scope.

(** ** Configuration and requests *)

(** The constants that [main.js] reads from the environment when it starts;
    an unset variable is [None]. *)
Record config : Type := Config {
  GITHUB_WEBHOOK_SECRET : option jstr;
  FEISHU_WEBHOOK_URL : option jstr;
  FEISHU_SIGN_SECRET : jstr;
  ALLOWED_REPOS : gset jstr;
  USER_MAPPING : mapping }.

(** What [express.raw] leaves in [req.body]: the bytes of the body in a
    [Buffer], or, for a request without a body or without a [Content-Type],
    something that is no [Buffer] (an empty object, or [undefined]). *)
Inductive captured : Type :=
| Buffer (b : bytes)
| not_captured.

(** A request as the handler gets it: the three headers it reads ([None]
    when the header is absent; Node decodes the bytes of a header value as
    Latin-1, one character per byte) and [req.body]. *)
Record request : Type := mk_request {
  X_Hub_Signature_256 : option jstr;
  X_GitHub_Event : option jstr;
  X_GitHub_Delivery : option jstr;
  req_body : captured }.

(** A request whose body [express.raw] has captured. *)
Definition Request (signature event delivery : option jstr) (b : bytes) : request :=
  mk_request signature event delivery (Buffer b).

(** The bytes of a captured body. *)
Definition raw_body (req : request) : bytes :=
  match req_body req with
  | Buffer b => b
  | not_captured => []
  end.

(** [req.header(name) || ""]. *)
Definition header_or_empty (h : option jstr) : jstr :=
  match h with
  | Some s => s
  | None => []
  end.

(** [!x] for a constant of the environment. *)
Definition unset (x : option jstr) : bool :=
  match x with
  | None | Some [] => true
  | Some _ => false
  end.

(** ** The inbound signature *)

(** [crypto.createHmac("sha256", key).update(data).digest("hex")]:
    [createHmac] raises a [TypeError] when the key is [undefined], and
    [update] raises one when the data is no [Buffer]. *)
Definition createHmac_hex (key : option jstr) (data : captured) : result jstr :=
  match key, data with
  | Some k, Buffer b => Ok (hex (HMAC_SHA256 (Buffer_from k) b))
  | _, _ => Throw TypeError
  end.

(** [crypto.timingSafeEqual]: a [RangeError] when the byte lengths differ. *)
Definition timingSafeEqual (a b : bytes) : result bool :=
  if bool_decide (length a = length b)
  then Ok (bool_decide (a = b))
  else Throw RangeError.

Definition verifyGitHubSignature (cfg : config) (req : request) : result bool :=
  let sig := header_or_empty (X_Hub_Signature_256 req) in
  match createHmac_hex (GITHUB_WEBHOOK_SECRET cfg) (req_body req) with
  | Throw e => Throw e
  | Ok digest =>
      let expected := lit "sha256=" ++ digest in
      if bool_decide (sig = []) || negb (bool_decide (length sig = length expected))
      then Ok false
      else timingSafeEqual (Buffer_from sig) (Buffer_from expected)
  end.

(** ** The outbound notification *)

Definition feishuSign (timestampSec secret : jstr) : jstr :=
  let stringToSign := timestampSec ++ LF ++ secret in
  base64 (HMAC_SHA256 (Buffer_from secret) (Buffer_from stringToSign)).

(** What the downstream call does: [fetch] rejects, or resolves to a response
    with its status and the outcome of [resp.text()] ([None] when that one
    rejects). *)
Inductive fetch_outcome : Type :=
| fetch_rejects (e : error)
| fetch_resolves (status : Z) (text : option jstr).

(** What a run of the handler takes from outside: the clock and the
    downstream webhook. *)
Record world : Type := World {
  Date_now : Z;
  downstream : fetch_outcome }.

(** [resp.ok]. *)
Definition resp_ok (status : Z) : bool := (200 <=? status)%Z && (status <=? 299)%Z.

(** The payload with the [timestamp] and [sign] that both senders attach
    when [FEISHU_SIGN_SECRET] is set. *)
Definition sign_payload (cfg : config) (w : world) (m : message) : outbound :=
  if bool_decide (FEISHU_SIGN_SECRET cfg = []) then Outbound m None None
  else
    let ts := decimal (Date_now w / 1000) in
    Outbound m (Some ts) (Some (feishuSign ts (FEISHU_SIGN_SECRET cfg))).

(** The body that [sendFeishuText] and [sendFeishuPost] share after they have
    built the [msg_type] and [content] of their payload. *)
Definition send (cfg : config) (w : world) (m : message) : action unit :=
  (perform (fetch_post (FEISHU_WEBHOOK_URL cfg) (sign_payload cfg w m)) ;;
   match downstream w with
   | fetch_rejects e => lift (Throw e)
   | fetch_resolves status text =>
       if resp_ok status then ret tt
       else
         let body := match text with Some b => b | None => [] end in
         lift (Throw (Error (lit "Feishu webhook failed: " ++ decimal status
                               ++ lit " " ++ body)))
   end)%action.

Definition sendFeishuText (cfg : config) (w : world) (text : jstr) : action unit :=
  send cfg w (msg_text text).

Definition sendFeishuPost (cfg : config) (w : world)
    (title : jstr) (contentLines : list segment) : action unit :=
  send cfg w (msg_post title contentLines).

(** ** The handler of [POST /github/webhook] *)

(** The text of the source that is not ASCII, as code units. *)
Definition check_mark : jstr := [0x2705]%N.                       (* U+2705 *)
Definition speech_balloon : jstr := [0xD83D; 0xDCAC]%N.           (* U+1F4AC *)
Definition zh_closed : jstr := [0x5DF2; 0x5173; 0x95ED]%N.        (* "closed" *)
Definition zh_details : jstr := [0x67E5; 0x770B; 0x8BE6; 0x60C5]%N. (* "view details" *)
Definition zh_new_comment : jstr := [0x65B0; 0x8BC4; 0x8BBA]%N.   (* "new comment" *)

(** The code units are those of the text in the source, whose UTF-8 bytes a
    string literal of this file holds. *)
Example non_ascii_text :
  Buffer_from (check_mark ++ speech_balloon) = lit "✅💬"
  /\ Buffer_from (zh_closed ++ zh_details ++ zh_new_comment) = lit "已关闭查看详情新评论".
Proof. vm_compute. split; reflexivity. Qed.

(** [ALLOWED_REPOS.has(repo)]: a set of strings holds no other value. *)
Definition Set_has (s : gset jstr) (v : value) : bool :=
  match v with
  | J (JStr r) => bool_decide (r ∈ s)
  | _ => false
  end.

(** The repository filter: the handler ignores the event when
    [ALLOWED_REPOS.size && !ALLOWED_REPOS.has(repo)]. *)
Definition allowed (repo : value) (allow_list : gset jstr) : bool :=
  negb (negb (bool_decide (size allow_list = 0)) && negb (Set_has allow_list repo)).

(** [b?.slice(0, 200)] in the template of the new-comment text.  Only strings
    and arrays have a [slice]; on any other value but [null] and [undefined]
    the call raises a [TypeError]. *)
Definition slice_200 (b : value) : result value :=
  match b with
  | undefined | J JNull => Ok undefined
  | J (JStr s) => Ok (str (take 200 s))
  | J (JArr items) => Ok (J (JArr (take 200 items)))
  | _ => Throw TypeError
  end.

(** [b?.length > 200], which the template reads after the slice, so that [b]
    is a string, an array, [null] or [undefined]; another value has no
    [length], and [undefined > 200] is [false]. *)
Definition longer_than_200 (b : value) : bool :=
  match b with
  | J (JStr s) => bool_decide (200 < length s)
  | J (JArr items) => bool_decide (200 < length items)
  | _ => false
  end.

Definition log_failure (err : error) : action unit :=
  perform (console_error (lit "Feishu send failed:") err).

Section Handler.

(** [JSON.parse(text)] on the UTF-8 decoding of a buffer; [None] when it
    raises. *)
Variable JSON_parse : bytes -> option json.

Variable cfg : config.

(** [JSON.parse(req.body.toString("utf8"))] inside its [try]: [None] when
    anything is raised, which is also what a body that is no [Buffer] comes
    to. *)
Definition parse_body (b : captured) : option json :=
  match b with
  | Buffer bs => JSON_parse bs
  | not_captured => None
  end.

(** The branch of [issues] / [closed].  A template literal converts each of
    its values to a string when it comes to it, from left to right; so does
    the computed key of [USER_MAPPING[opener]]. *)
Definition issues_closed (w : world) (repo payload : value) : action unit :=
  (let* issue := lift (get payload Key.issue) in
   let* issue_user := lift (get issue Key.user) in
   let opener := or_else (get_opt issue_user Key.login) (str []) in
   let* key := lift (to_string opener) in
   let* feishuUserId := lift (lookup_mapping (USER_MAPPING cfg) key) in
   let* opener_text := lift (to_string opener) in
   perform (console_log
     [str (lit "Issue closed by " ++ opener_text ++ lit ", feishuUserId:");
      feishuUserId]) ;;
   let* number := lift (get issue Key.number) in
   let* number_text := lift (to_string number) in
   let* title := lift (get issue Key.title) in
   let* title_text := lift (to_string title) in
   let* html_url := lift (get issue Key.html_url) in
   let* sender := lift (get payload Key.sender) in
   let* sender_text :=
     lift (to_string (or_else (get_opt sender Key.login) (str (lit "unknown")))) in
   let contentLines :=
     [text_segment (lit "Issue #" ++ number_text ++ lit " " ++ zh_closed ++ LF);
      text_segment (title_text ++ LF);
      a_segment zh_details html_url;
      text_segment (LF ++ lit "by " ++ sender_text)] in
   let* contentLines :=
     if truthy feishuUserId then
       let* user_id := lift (get feishuUserId Key.id) in
       let* user_name := lift (get feishuUserId Key.name) in
       ret (contentLines ++ [text_segment LF; at_segment user_id user_name])
     else ret contentLines in
   perform (respond 202 (lit "Accepted")) ;;
   let* repo_text := lift (to_string repo) in
   catch (sendFeishuPost cfg w (check_mark ++ lit " [" ++ repo_text ++ lit "]") contentLines)
         log_failure)%action.

(** The branch of [issue_comment] / [created]. *)
Definition issue_comment_created (w : world) (repo payload : value) : action unit :=
  (let* issue := lift (get payload Key.issue) in
   let* comment := lift (get payload Key.comment) in
   let* repo_text := lift (to_string repo) in
   let* number := lift (get issue Key.number) in
   let* number_text := lift (to_string number) in
   let* title := lift (get issue Key.title) in
   let* title_text := lift (to_string title) in
   let* comment_user := lift (get comment Key.user) in
   let* commenter_text :=
     lift (to_string (or_else (get_opt comment_user Key.login) (str (lit "unknown")))) in
   let* body := lift (get comment Key.body) in
   let* sliced := lift (slice_200 body) in
   let* body_text := lift (to_string (or_else sliced (str []))) in
   let ellipsis := if longer_than_200 body then lit "..." else [] in
   let* html_url := lift (get comment Key.html_url) in
   let* html_url_text := lift (to_string html_url) in
   let text :=
     speech_balloon ++ lit " [" ++ repo_text ++ lit "] Issue #" ++ number_text
       ++ lit " " ++ zh_new_comment ++ LF
       ++ title_text ++ LF
       ++ lit "by " ++ commenter_text ++ LF ++ LF
       ++ body_text ++ ellipsis ++ LF ++ html_url_text in
   perform (respond 202 (lit "Accepted")) ;;
   catch (sendFeishuText cfg w text) log_failure)%action.

Definition webhook (w : world) (req : request) : action unit :=
  (if unset (GITHUB_WEBHOOK_SECRET cfg) || unset (FEISHU_WEBHOOK_URL cfg) then
     perform (respond 500 (lit "Server not configured"))
   else
     let* valid := lift (verifyGitHubSignature cfg req) in
     if negb valid then perform (respond 401 (lit "Invalid signature"))
     else
       let event := header_or_empty (X_GitHub_Event req) in
       let deliveryId := header_or_empty (X_GitHub_Delivery req) in
       match parse_body (req_body req) with
       | None => perform (respond 400 (lit "Bad JSON"))
       | Some parsed =>
           let payload := J parsed in
           let repo :=
             or_else (get_opt (get_opt payload Key.repository) Key.full_name) (str []) in
           if negb (allowed repo (ALLOWED_REPOS cfg)) then
             perform (respond 200 (lit "Ignored repo"))
           else if bool_decide (event = lit "issues")
                   && is_str (get_opt payload Key.action) (lit "closed") then
             issues_closed w repo payload
           else if bool_decide (event = lit "issue_comment")
                   && is_str (get_opt payload Key.action) (lit "created") then
             issue_comment_created w repo payload
           else
             perform (console_log [str (lit "Ignored Event"); str event; payload]) ;;
             perform (respond 200 (lit "Ignored event"))
       end)%action.

End Handler.

(** What the caller of the webhook sees of a run: the response, if one was
    sent. *)
Fixpoint first_response (t : list effect) : option (Z * jstr) :=
  match t with
  | [] => None
  | respond status text :: _ => Some (status, text)
  | _ :: t' => first_response t'
  end.

Definition response {A} (run : action A) : option (Z * jstr) :=
  first_response (fst run).

(** The outbound POSTs of a run. *)
Fixpoint posts (t : list effect) : list outbound :=
  match t with
  | [] => []
  | fetch_post _ payload :: t' => payload :: posts t'
  | _ :: t' => posts t'
  end.

(** * Properties *)

(** ** Strings and buffers *)

Lemma Buffer_from_ascii (s : jstr) : is_ascii s -> Buffer_from s = s.
Proof.
  induction 1 as [|u rest Hu _ IH]; [reflexivity|].
  simpl. apply N.ltb_lt in Hu. rewrite Hu. now rewrite IH.
Qed.

Lemma Buffer_from_cons_ascii (s : jstr) (b : N) (bs : bytes) :
  Buffer_from s = b :: bs -> (b < 128)%N ->
  exists rest, s = b :: rest /\ Buffer_from rest = bs.
Proof.
  assert (Hge : forall a x b', (128 <= a)%N -> (a + x)%N = b' -> (b' < 128)%N -> False)
    by (intros a x b' Ha <- Hlt; pose proof (N.le_add_r a x); lia).
  destruct s as [|u rest]; [discriminate|].
  simpl. unfold utf8_3, utf8_4. intros H Hb.
  destruct (N.ltb_spec u 0x80).
  { injection H as -> H. eauto. }
  exfalso.
  repeat match type of H with
         | (if ?c then _ else _) = _ => destruct c
         | match ?l with [] => _ | _ :: _ => _ end = _ => destruct l
         end;
    simpl in H; injection H as H _; first [lia | eapply Hge; [|exact H|exact Hb]; lia].
Qed.

(** Only an ASCII string is encoded as ASCII bytes, namely as itself. *)
Lemma Buffer_from_inv_ascii (e : bytes) :
  is_ascii e -> forall s : jstr, Buffer_from s = e -> s = e.
Proof.
  induction 1 as [|b bs Hb _ IH]; intros s H.
  - destruct s as [|u rest]; [reflexivity|].
    simpl in H. exfalso.
    repeat match type of H with
           | (if ?c then _ else _) = _ => destruct c
           | match ?l with [] => _ | _ :: _ => _ end = _ => destruct l
           end; discriminate.
  - destruct (Buffer_from_cons_ascii s b bs H Hb) as (rest & -> & Hrest).
    f_equal. now apply IH.
Qed.

Lemma hex_digit_ascii (n : N) : (n < 16)%N -> (hex_digit n < 128)%N.
Proof. unfold hex_digit. destruct (n <? 10)%N; lia. Qed.

Lemma hex_is_ascii (bs : bytes) : is_ascii (hex bs).
Proof.
  unfold hex, is_ascii. induction bs as [|b bs IH]; simpl; [constructor|].
  repeat constructor; [apply hex_digit_ascii; apply N.mod_lt; lia ..|exact IH].
Qed.

(** The length of what [digest("hex")] returns: two characters per byte. *)
Lemma length_hex (bs : bytes) : length (hex bs) = 2 * length bs.
Proof. unfold hex. induction bs as [|b bs IH]; simpl; [reflexivity|]. rewrite IH. lia. Qed.

(** ** C1, C2: the inbound signature *)

(** The header that GitHub sends for a body and a secret: the scheme tag and
    the lowercase hexadecimal HMAC-SHA256 of the body, keyed by the secret. *)
Definition expected_signature (secret : jstr) (body : bytes) : jstr :=
  lit "sha256=" ++ hex (HMAC_SHA256 (Buffer_from secret) body).

Lemma expected_signature_ascii secret body : is_ascii (expected_signature secret body).
Proof.
  unfold expected_signature, is_ascii. apply Forall_app. split.
  - vm_compute. repeat constructor.
  - apply hex_is_ascii.
Qed.


(** Whether a request carries the expected header for its body. *)
Definition signature_valid (cfg : config) (req : request) : bool :=
  match GITHUB_WEBHOOK_SECRET cfg, req_body req with
  | Some secret, Buffer body =>
      bool_decide (X_Hub_Signature_256 req = Some (expected_signature secret body))
  | _, _ => false
  end.

Lemma verifyGitHubSignature_unfold cfg req secret :
  GITHUB_WEBHOOK_SECRET cfg = Some secret ->
  verifyGitHubSignature cfg req =
    match req_body req with
    | not_captured => Throw TypeError
    | Buffer body =>
        let sig := header_or_empty (X_Hub_Signature_256 req) in
        let expected := expected_signature secret body in
        if bool_decide (sig = []) || negb (bool_decide (length sig = length expected))
        then Ok false
        else timingSafeEqual (Buffer_from sig) expected
    end.
Proof.
  intros Hs. unfold verifyGitHubSignature, createHmac_hex. rewrite Hs.
  destruct (req_body req) as [body|]; [|reflexivity]. cbv zeta.
  fold (expected_signature secret body).
  now rewrite (Buffer_from_ascii _ (expected_signature_ascii _ _)).
Qed.

(** Without a captured body the check raises, whatever the header. *)
Lemma verify_not_captured cfg req :
  req_body req = not_captured -> verifyGitHubSignature cfg req = Throw TypeError.
Proof.
  intros H. unfold verifyGitHubSignature, createHmac_hex. rewrite H.
  now destruct (GITHUB_WEBHOOK_SECRET cfg).
Qed.

(** A check that answers has had a body to sign. *)
Lemma verify_Ok_captured cfg req v :
  verifyGitHubSignature cfg req = Ok v -> req_body req = Buffer (raw_body req).
Proof.
  intros H. unfold raw_body. destruct (req_body req) eqn:Hb; [reflexivity|].
  now rewrite (verify_not_captured _ _ Hb) in H.
Qed.

Lemma verify_captured_true_iff cfg req secret body :
  GITHUB_WEBHOOK_SECRET cfg = Some secret ->
  req_body req = Buffer body ->
  verifyGitHubSignature cfg req = Ok true
  <-> X_Hub_Signature_256 req = Some (expected_signature secret body).
Proof.
  intros Hs Hb. rewrite (verifyGitHubSignature_unfold _ _ _ Hs), Hb. cbv zeta.
  set (expected := expected_signature secret body).
  assert (Hne : expected <> []) by (unfold expected, expected_signature; discriminate).
  assert (Hascii : is_ascii expected) by apply expected_signature_ascii.
  clearbody expected. unfold timingSafeEqual.
  split.
  - intros H.
    destruct (X_Hub_Signature_256 req) as [sig|]; simpl in H; [|discriminate].
    repeat (case_bool_decide; simpl in H; try discriminate).
    f_equal. now apply Buffer_from_inv_ascii.
  - intros ->. unfold header_or_empty.
    rewrite (Buffer_from_ascii expected Hascii).
    rewrite (bool_decide_eq_false_2 _ Hne), !(bool_decide_eq_true_2 _ eq_refl).
    reflexivity.
Qed.

(** The part of C1 that holds: with a configured secret, the check answers
    [true] exactly on the expected header of a captured body. *)
Lemma verify_true_iff cfg req secret :
  GITHUB_WEBHOOK_SECRET cfg = Some secret ->
  verifyGitHubSignature cfg req = Ok true
  <-> req_body req = Buffer (raw_body req)
      /\ X_Hub_Signature_256 req = Some (expected_signature secret (raw_body req)).
Proof.
  intros Hs. split.
  - intros H. pose proof (verify_Ok_captured _ _ _ H) as Hb. split; [exact Hb|].
    now apply (verify_captured_true_iff cfg req secret _ Hs Hb).
  - intros [Hb H]. now apply (verify_captured_true_iff cfg req secret _ Hs Hb).
Qed.

Lemma verify_true_valid cfg req :
  verifyGitHubSignature cfg req = Ok true <-> signature_valid cfg req = true.
Proof.
  unfold signature_valid.
  destruct (GITHUB_WEBHOOK_SECRET cfg) as [secret|] eqn:Hs.
  - destruct (req_body req) as [body|] eqn:Hb.
    + rewrite (verify_captured_true_iff _ _ _ _ Hs Hb). now rewrite bool_decide_eq_true.
    + rewrite (verify_not_captured _ _ Hb). split; discriminate.
  - unfold verifyGitHubSignature, createHmac_hex. rewrite Hs. split; discriminate.
Qed.

(** A signed request passes: [verify(B, sign(B, S), S)]. *)
Lemma verify_signed cfg secret body event delivery :
  GITHUB_WEBHOOK_SECRET cfg = Some secret ->
  verifyGitHubSignature cfg
    (Request (Some (expected_signature secret body)) event delivery body) = Ok true.
Proof. intros Hs. now apply (verify_captured_true_iff _ _ _ body Hs). Qed.

(** *** Concrete requests

    The secret and the body are those of GitHub's documentation (see
    [hmac_github_docs]). *)

Definition docs_secret : jstr := lit "It's a Secret to Everybody".
Definition docs_body : bytes := lit "Hello, World!".
Definition docs_signature : jstr :=
  lit "sha256=757107ea0eb2509fc211221cce984b8a37570b6d7586c22c46f4379c8b043e17".

Definition feishu_url : jstr := lit "https://open.feishu.cn/open-apis/bot/v2/hook/x".

(** A configuration with no allow-list, no outbound signing and the empty
    mapping. *)
Definition docs_cfg : config :=
  Config (Some docs_secret) (Some feishu_url) [] ∅ (plain_object ∅).

Example docs_signature_expected :
  expected_signature docs_secret docs_body = docs_signature.
Proof. vm_compute. reflexivity. Qed.

Example docs_request_verifies :
  verifyGitHubSignature docs_cfg (Request (Some docs_signature) None None docs_body)
  = Ok true.
Proof. vm_compute. reflexivity. Qed.

(** The expected header with its last character, [7], replaced: once by the
    letter [A], once by the byte 0xE9, which Node reads as the character
    U+00E9 (header values are decoded as Latin-1). *)
Definition mutated_ascii : jstr :=
  lit "sha256=757107ea0eb2509fc211221cce984b8a37570b6d7586c22c46f4379c8b043e1A".
Definition mutated_latin1 : jstr :=
  lit "sha256=757107ea0eb2509fc211221cce984b8a37570b6d7586c22c46f4379c8b043e1"
  ++ [0xE9]%N.

(** C1 (the code departs from the claim).  The claim: [verify] answers [true]
    exactly on the expected header, and [false] on any other header, such as
    the expected one with a single byte changed.  The code: the header below
    differs from the expected one in its last byte only and has its 71
    characters, so the length check of [verifyGitHubSignature] lets it
    through; its UTF-8 encoding has 72 bytes, and [crypto.timingSafeEqual]
    raises a [RangeError] instead of answering [false]. *)
Theorem C1_mutated_signature_raises :
  length mutated_latin1 = length (expected_signature docs_secret docs_body)
  /\ length (Buffer_from mutated_latin1) = 72
  /\ verifyGitHubSignature docs_cfg (Request (Some mutated_latin1) None None docs_body)
     = Throw RangeError.
Proof. vm_compute. repeat split. Qed.

(** The handler then sends no response at all, where the specification has
    it answer 401. *)
Lemma webhook_raises_on_mutated_signature JSON_parse w event delivery :
  webhook JSON_parse docs_cfg w (Request (Some mutated_latin1) event delivery docs_body)
  = ([], Throw RangeError).
Proof.
  unfold webhook.
  change (unset _ || unset _) with false. cbv iota.
  replace (verifyGitHubSignature docs_cfg _) with (@Throw bool RangeError);
    [reflexivity|]. vm_compute. reflexivity.
Qed.

(** The counterexample of C2: with the secret missing, [verify] raises a
    [TypeError] (from [crypto.createHmac]) where the claim has it answer
    [false]. *)
Lemma C2_missing_secret_raises :
  verifyGitHubSignature (Config None (Some feishu_url) [] ∅ (plain_object ∅))
    (Request (Some docs_signature) None None docs_body)
  = Throw TypeError.
Proof. reflexivity. Qed.

(** So it does on a request whose body [express.raw] has not captured (a
    POST with no [Content-Type], or with no body), whatever the secret and
    the header: [update] takes a [Buffer]. *)
Example body_not_captured_raises :
  verifyGitHubSignature docs_cfg (mk_request (Some docs_signature) None None not_captured)
  = Throw TypeError.
Proof. reflexivity. Qed.

(** With an empty secret the check is the same as with any other key: it
    answers [true] on the header signed with the empty key. *)
Example empty_secret_verifies :
  verifyGitHubSignature (Config (Some []) (Some feishu_url) [] ∅ (plain_object ∅))
    (Request (Some (expected_signature [] docs_body)) None None docs_body)
  = Ok true.
Proof. now apply verify_signed. Qed.

(** When the check answers [false]. *)
Lemma verify_returns_false cfg req secret body :
  GITHUB_WEBHOOK_SECRET cfg = Some secret ->
  req_body req = Buffer body ->
  let sig := header_or_empty (X_Hub_Signature_256 req) in
  let expected := expected_signature secret body in
  sig = []
  \/ length sig <> length expected
  \/ (sig <> expected /\ length (Buffer_from sig) = length sig) ->
  verifyGitHubSignature cfg req = Ok false.
Proof.
  intros Hs Hb sig expected H.
  rewrite (verifyGitHubSignature_unfold _ _ _ Hs), Hb. cbv zeta.
  fold sig expected.
  case_bool_decide as Hnil; [reflexivity|].
  case_bool_decide as Hlen; [|reflexivity]. simpl.
  destruct H as [H|[H|[Hne Hbytes]]]; [contradiction ..|].
  unfold timingSafeEqual.
  rewrite (bool_decide_eq_true_2 _ (eq_trans Hbytes Hlen)).
  rewrite bool_decide_eq_false_2; [reflexivity|].
  intros Heq. apply Hne.
  apply Buffer_from_inv_ascii; [apply expected_signature_ascii|exact Heq].
Qed.

(** C2 (amended).  With a configured secret and a body that [express.raw]
    has captured, [verify] answers [false] and does not raise when the
    signature header is missing or empty, when its length is not that of the
    expected header, and when it differs from the expected header and its
    UTF-8 encoding has as many bytes as it has characters (every ASCII header
    is such). *)
Theorem C2_verify_returns_false cfg req secret body :
  GITHUB_WEBHOOK_SECRET cfg = Some secret ->
  req_body req = Buffer body ->
  let sig := header_or_empty (X_Hub_Signature_256 req) in
  let expected := expected_signature secret body in
  sig = []
  \/ length sig <> length expected
  \/ (sig <> expected /\ length (Buffer_from sig) = length sig) ->
  verifyGitHubSignature cfg req = Ok false.
Proof. exact (verify_returns_false cfg req secret body). Qed.

Lemma C2_verify_returns_false_witness :
  verifyGitHubSignature docs_cfg (Request (Some mutated_ascii) None None docs_body)
  = Ok false.
Proof.
  apply (C2_verify_returns_false docs_cfg _ docs_secret docs_body);
    [reflexivity|reflexivity|].
  right; right. split; [vm_compute; discriminate|vm_compute; reflexivity].
Defined.

(** The guard against a missing or empty secret is the handler's: it answers
    500 and does not call [verifyGitHubSignature]. *)
Lemma webhook_unconfigured JSON_parse cfg w req :
  unset (GITHUB_WEBHOOK_SECRET cfg) || unset (FEISHU_WEBHOOK_URL cfg) = true ->
  webhook JSON_parse cfg w req = ([respond 500 (lit "Server not configured")], Ok tt).
Proof. intros H. unfold webhook. now rewrite H. Qed.

(** ** C6: the repository filter *)

Lemma allowed_iff (r : jstr) (allow_list : gset jstr) :
  allowed (str r) allow_list = true <-> allow_list = ∅ \/ r ∈ allow_list.
Proof.
  unfold allowed, str, Set_has.
  rewrite negb_true_iff, andb_false_iff, !negb_false_iff, !bool_decide_eq_true.
  now rewrite size_empty_iff, leibniz_equiv_iff.
Qed.

(** C6.  [allowed] is a function of the repository name and the allow-list
    alone, and it answers [true] exactly when the list is empty or holds the
    name; the three examples of the specification. *)
Theorem C6_allowed :
  (forall (r : jstr) (allow_list : gset jstr),
      allowed (str r) allow_list = true <-> allow_list = ∅ \/ r ∈ allow_list)
  /\ (forall r : jstr, allowed (str r) ∅ = true)
  /\ allowed (str (lit "a/b")) {[ lit "a/b" ]} = true
  /\ allowed (str (lit "a/c")) {[ lit "a/b" ]} = false.
Proof.
  split; [exact allowed_iff|]. split; [|split].
  - intros r. apply allowed_iff. now left.
  - apply allowed_iff. right. set_solver.
  - apply not_true_iff_false. rewrite allowed_iff. intros [H|H].
    + apply (f_equal size) in H. rewrite size_singleton, size_empty in H. discriminate.
    + apply elem_of_singleton in H. discriminate.
Qed.

(** ** The runs of the handler *)

Definition nullish (v : value) : bool :=
  match v with
  | undefined | J JNull => true
  | _ => false
  end.

Lemma get_nullish v k : nullish v = true -> get v k = Throw TypeError.
Proof. destruct v as [|[]| | |]; simpl; congruence. Qed.

Lemma get_defined v k : nullish v = false -> get v k = Ok (get_opt v k).
Proof. unfold get_opt. destruct v as [|[]| | |]; simpl; congruence. Qed.

Lemma truthy_not_nullish v : truthy v = true -> nullish v = false.
Proof. destruct v as [|[]| | |]; simpl; congruence. Qed.

Lemma is_str_object v k s : is_str (get_opt v k) s = true -> nullish v = false.
Proof. destruct v as [|[]| | |]; simpl; congruence. Qed.

Lemma bind_lift_Ok {A B} (a : A) (f : A -> action B) : bind (lift (Ok a)) f = f a.
Proof. unfold bind, lift. now destruct (f a). Qed.

Lemma bind_lift_Throw {A B} (e : error) (f : A -> action B) :
  bind (lift (Throw e)) f = ([], Throw e).
Proof. reflexivity. Qed.

Lemma bind_ret {A B} (a : A) (f : A -> action B) : bind (ret a) f = f a.
Proof. apply bind_lift_Ok. Qed.

Lemma bind_perform {B} (e : effect) (k : action B) :
  bind (perform e) (fun _ => k) = (e :: fst k, snd k).
Proof. unfold bind, perform. now destruct k. Qed.

(** *** The errors of the rendering

    A conversion, a property access, a lookup in the mapping and a slice
    raise nothing but a [TypeError]. *)

(** Induction on a JSON value, with the property of the items of an
    array. *)
Section json_induction.

Variable P : json -> Prop.
Hypothesis P_null : P JNull.
Hypothesis P_bool : forall b, P (JBool b).
Hypothesis P_num : forall n, P (JNum n).
Hypothesis P_str : forall s, P (JStr s).
Hypothesis P_arr : forall items, Forall P items -> P (JArr items).
Hypothesis P_obj : forall fields, P (JObj fields).

Fixpoint json_items_ind (j : json) : P j :=
  match j with
  | JNull => P_null
  | JBool b => P_bool b
  | JNum n => P_num n
  | JStr s => P_str s
  | JArr items =>
      P_arr items
        ((fix all (l : list json) : Forall P l :=
            match l with
            | [] => List.Forall_nil P
            | x :: rest => @List.Forall_cons json P x rest (json_items_ind x) (all rest)
            end) items)
  | JObj fields => P_obj fields
  end.

End json_induction.

Lemma json_to_string_error j e : json_to_string j = Throw e -> e = TypeError.
Proof.
  revert e. induction j as [|b|n|s|items IH|fields] using json_items_ind;
    intros e; simpl; try discriminate.
  - assert (Hitems : forall e',
               all_results
                 (map (fun x => match x with JNull => Ok [] | _ => json_to_string x end) items)
               = Throw e' -> e' = TypeError).
    { induction IH as [|x items Hx _ IHitems]; intros e'; simpl; [discriminate|].
      destruct (match x with JNull => Ok [] | _ => json_to_string x end) as [a|e0] eqn:Hconv.
      - destruct (all_results _) as [l|e1]; [discriminate|].
        intros [= <-]. now apply IHitems.
      - intros [= <-]. destruct x; try discriminate; exact (Hx _ Hconv). }
    destruct (all_results _) as [l|e0]; [discriminate|].
    intros [= <-]. now apply Hitems.
  - destruct (has_own _ _); [congruence|discriminate].
Qed.

Lemma to_string_error v e : to_string v = Throw e -> e = TypeError.
Proof.
  destruct v as [|j|f| |[]]; simpl; try discriminate. apply json_to_string_error.
Qed.

Lemma get_error v k e : get v k = Throw e -> e = TypeError.
Proof. destruct v as [|[]| | |]; simpl; congruence. Qed.

Lemma lookup_mapping_error m key e : lookup_mapping m key = Throw e -> e = TypeError.
Proof.
  destruct m as [own|get_key]; simpl; [discriminate|].
  destruct (get_key key); congruence.
Qed.

Lemma slice_200_error b e : slice_200 b = Throw e -> e = TypeError.
Proof. destruct b as [|[]| | |]; simpl; congruence. Qed.

Lemma and_then_error {A B} (r : result A) (f : A -> result B) e :
  (forall e', r = Throw e' -> e' = TypeError) ->
  (forall a e', f a = Throw e' -> e' = TypeError) ->
  and_then r f = Throw e -> e = TypeError.
Proof. intros Hr Hf. destruct r as [a|e0]; simpl; [apply Hf|]. intros [= <-]. now apply Hr. Qed.

(** What the console shows of the downstream call: nothing when it
    succeeds, the error otherwise. *)
Definition delivery_log (w : world) : list effect :=
  match downstream w with
  | fetch_rejects e => [console_error (lit "Feishu send failed:") e]
  | fetch_resolves status text =>
      if resp_ok status then []
      else [console_error (lit "Feishu send failed:")
              (Error (lit "Feishu webhook failed: " ++ decimal status ++ lit " "
                      ++ match text with Some b => b | None => [] end))]
  end.

(** A detached send always ends well: one POST, and the failure, if any, on
    the console. *)
Lemma send_caught cfg w m :
  catch (send cfg w m) log_failure
  = (fetch_post (FEISHU_WEBHOOK_URL cfg) (sign_payload cfg w m) :: delivery_log w, Ok tt).
Proof.
  unfold send, delivery_log. rewrite bind_perform.
  destruct (downstream w) as [e|status text]; [reflexivity|].
  now destruct (resp_ok status).
Qed.

(** *** [issues] / [closed] *)

(** The login of the opener, as the handler takes it. *)
Definition opener_of (payload : value) : value :=
  or_else (get_opt (get_opt (get_opt payload Key.issue) Key.user) Key.login) (str []).

(** The key and the outcome of the lookup [USER_MAPPING[opener]]. *)
Definition closed_lookup (cfg : config) (payload : value) : result (jstr * value) :=
  if nullish (get_opt payload Key.issue) then Throw TypeError
  else
    (let+ key := to_string (opener_of payload) in
     let+ feishuUserId := lookup_mapping (USER_MAPPING cfg) key in
     Ok (key, feishuUserId))%result.

Definition closed_log (key : jstr) (feishuUserId : value) : effect :=
  console_log [str (lit "Issue closed by " ++ key ++ lit ", feishuUserId:"); feishuUserId].

(** The login of a person, or [unknown]. *)
Definition attribution (who : value) : result jstr :=
  to_string (or_else (get_opt who Key.login) (str (lit "unknown"))).

Definition mention (feishuUserId : value) : list segment :=
  if truthy feishuUserId
  then [text_segment LF;
        at_segment (get_opt feishuUserId Key.id) (get_opt feishuUserId Key.name)]
  else [].

Definition closed_lines (payload feishuUserId : value) : result (list segment) :=
  let issue := get_opt payload Key.issue in
  (let+ number_text := to_string (get_opt issue Key.number) in
   let+ title_text := to_string (get_opt issue Key.title) in
   let+ sender_text := attribution (get_opt payload Key.sender) in
   Ok ([text_segment (lit "Issue #" ++ number_text ++ lit " " ++ zh_closed ++ LF);
        text_segment (title_text ++ LF);
        a_segment zh_details (get_opt issue Key.html_url);
        text_segment (LF ++ lit "by " ++ sender_text)]
       ++ mention feishuUserId))%result.

Definition closed_title (repo : value) : result jstr :=
  (let+ repo_text := to_string repo in
   Ok (check_mark ++ lit " [" ++ repo_text ++ lit "]"))%result.

(** The runs of the branch: it raises before it has done anything, after
    the line on the console, or after the response; or it gets to the
    POST. *)
Definition issues_closed_runs (cfg : config) (w : world) (repo payload : value)
    : action unit :=
  match closed_lookup cfg payload with
  | Throw _ => ([], Throw TypeError)
  | Ok (key, feishuUserId) =>
      match closed_lines payload feishuUserId with
      | Throw _ => ([closed_log key feishuUserId], Throw TypeError)
      | Ok lines =>
          match closed_title repo with
          | Throw _ =>
              ([closed_log key feishuUserId; respond 202 (lit "Accepted")], Throw TypeError)
          | Ok title =>
              (closed_log key feishuUserId
                 :: respond 202 (lit "Accepted")
                 :: fetch_post (FEISHU_WEBHOOK_URL cfg)
                      (sign_payload cfg w (msg_post title lines))
                 :: delivery_log w,
               Ok tt)
          end
      end
  end.

Ltac raised :=
  repeat match goal with
         | H : to_string _ = Throw _ |- _ => apply to_string_error in H; subst
         | H : lookup_mapping _ _ = Throw _ |- _ => apply lookup_mapping_error in H; subst
         | H : slice_200 _ = Throw _ |- _ => apply slice_200_error in H; subst
         end.

Lemma issues_closed_run cfg w repo payload :
  nullish payload = false ->
  issues_closed cfg w repo payload = issues_closed_runs cfg w repo payload.
Proof.
  intros Hp. unfold issues_closed, issues_closed_runs, closed_lookup.
  rewrite !(get_defined payload) by assumption. rewrite bind_lift_Ok.
  destruct (nullish (get_opt payload Key.issue)) eqn:Hi.
  { now rewrite (get_nullish _ _ Hi). }
  rewrite !(get_defined (get_opt payload Key.issue)) by assumption.
  rewrite bind_lift_Ok. fold (opener_of payload).
  destruct (to_string (opener_of payload)) as [key|e] eqn:Hkey; [|now raised].
  rewrite bind_lift_Ok. cbn [and_then].
  destruct (lookup_mapping (USER_MAPPING cfg) key) as [feishuUserId|e] eqn:Hid;
    [|now raised].
  rewrite !bind_lift_Ok. cbn [and_then]. rewrite bind_perform.
  unfold closed_lines, attribution, closed_title. cbv zeta.
  fold (closed_log key feishuUserId).
  destruct (to_string (get_opt (get_opt payload Key.issue) Key.number))
    as [number_text|e] eqn:Hn; [|now raised].
  rewrite !bind_lift_Ok. cbn [and_then].
  destruct (to_string (get_opt (get_opt payload Key.issue) Key.title))
    as [title_text|e] eqn:Ht; [|now raised].
  rewrite !bind_lift_Ok. cbn [and_then].
  destruct (to_string (or_else (get_opt (get_opt payload Key.sender) Key.login) _))
    as [sender_text|e] eqn:Hs; [|now raised].
  rewrite !bind_lift_Ok. cbn [and_then]. unfold mention, sendFeishuPost.
  destruct (truthy feishuUserId) eqn:Htruthy.
  - rewrite !(get_defined _ _ (truthy_not_nullish _ Htruthy)), !bind_lift_Ok, bind_ret.
    rewrite bind_perform.
    destruct (to_string repo) as [repo_text|e] eqn:Hr; [|now raised].
    rewrite bind_lift_Ok, send_caught. reflexivity.
  - rewrite bind_ret, bind_perform.
    destruct (to_string repo) as [repo_text|e] eqn:Hr; [|now raised].
    rewrite bind_lift_Ok, send_caught. reflexivity.
Qed.

(** *** [issue_comment] / [created] *)

(** The text up to the comment body. *)
Definition comment_heading (repo payload : value) : result jstr :=
  let issue := get_opt payload Key.issue in
  (let+ repo_text := to_string repo in
   let+ number_text := to_string (get_opt issue Key.number) in
   let+ title_text := to_string (get_opt issue Key.title) in
   let+ commenter_text := attribution (get_opt (get_opt payload Key.comment) Key.user) in
   Ok (speech_balloon ++ lit " [" ++ repo_text ++ lit "] Issue #" ++ number_text
       ++ lit " " ++ zh_new_comment ++ LF
       ++ title_text ++ LF
       ++ lit "by " ++ commenter_text ++ LF ++ LF))%result.

(** The comment body as the text shows it. *)
Definition body_text (b : value) : result jstr :=
  (let+ sliced := slice_200 b in
   let+ shown := to_string (or_else sliced (str [])) in
   Ok (shown ++ (if longer_than_200 b then lit "..." else [])))%result.

Definition comment_text (repo payload : value) : result jstr :=
  let comment := get_opt payload Key.comment in
  if nullish (get_opt payload Key.issue) || nullish comment then Throw TypeError
  else
    (let+ heading := comment_heading repo payload in
     let+ shown := body_text (get_opt comment Key.body) in
     let+ url := to_string (get_opt comment Key.html_url) in
     Ok (heading ++ shown ++ LF ++ url))%result.

(** The runs of the branch: it raises before it has done anything, or it
    gets to the POST. *)
Definition issue_comment_created_runs (cfg : config) (w : world) (repo payload : value)
    : action unit :=
  match comment_text repo payload with
  | Throw _ => ([], Throw TypeError)
  | Ok text =>
      (respond 202 (lit "Accepted")
         :: fetch_post (FEISHU_WEBHOOK_URL cfg) (sign_payload cfg w (msg_text text))
         :: delivery_log w,
       Ok tt)
  end.

Lemma issue_comment_created_run cfg w repo payload :
  nullish payload = false ->
  issue_comment_created cfg w repo payload = issue_comment_created_runs cfg w repo payload.
Proof.
  intros Hp.
  unfold issue_comment_created, issue_comment_created_runs, comment_text,
    comment_heading, body_text, attribution.
  rewrite !(get_defined payload) by assumption. rewrite !bind_lift_Ok. cbv zeta.
  destruct (nullish (get_opt payload Key.issue)) eqn:Hi.
  { destruct (to_string repo) eqn:Hr; [now rewrite bind_lift_Ok, (get_nullish _ _ Hi)|now raised]. }
  rewrite !(get_defined (get_opt payload Key.issue)) by assumption.
  destruct (nullish (get_opt payload Key.comment)) eqn:Hc.
  { cbn [orb]. rewrite (get_nullish _ _ Hc).
    repeat match goal with
           | |- context [bind (lift (to_string ?v)) _] =>
               destruct (to_string v) eqn:?; [rewrite !bind_lift_Ok|now raised]
           end.
    reflexivity. }
  rewrite !(get_defined (get_opt payload Key.comment)) by assumption. cbn [orb].
  destruct (to_string repo) as [repo_text|e] eqn:Hr; [|now raised].
  rewrite !bind_lift_Ok. cbn [and_then].
  destruct (to_string (get_opt (get_opt payload Key.issue) Key.number))
    as [number_text|e] eqn:Hn; [|now raised].
  rewrite !bind_lift_Ok. cbn [and_then].
  destruct (to_string (get_opt (get_opt payload Key.issue) Key.title))
    as [title_text|e] eqn:Ht; [|now raised].
  rewrite !bind_lift_Ok. cbn [and_then].
  destruct (to_string (or_else (get_opt (get_opt (get_opt payload Key.comment) Key.user)
                                  Key.login) _))
    as [commenter_text|e] eqn:Hu; [|now raised].
  rewrite !bind_lift_Ok. cbn [and_then].
  destruct (slice_200 (get_opt (get_opt payload Key.comment) Key.body))
    as [sliced|e] eqn:Hs; [|now raised].
  rewrite !bind_lift_Ok. cbn [and_then].
  destruct (to_string (or_else sliced (str []))) as [shown|e] eqn:Hshown; [|now raised].
  rewrite !bind_lift_Ok. cbn [and_then].
  destruct (to_string (get_opt (get_opt payload Key.comment) Key.html_url))
    as [url|e] eqn:Hurl; [|now raised].
  rewrite !bind_lift_Ok. cbn [and_then].
  rewrite bind_perform. unfold sendFeishuText. rewrite send_caught. cbn [fst snd].
  repeat rewrite <- app_assoc. reflexivity.
Qed.

(** *** The whole handler *)

Definition repo_of (payload : value) : value :=
  or_else (get_opt (get_opt payload Key.repository) Key.full_name) (str []).

Definition is_issues_closed (event : jstr) (payload : value) : bool :=
  bool_decide (event = lit "issues") && is_str (get_opt payload Key.action) (lit "closed").

Definition is_comment_created (event : jstr) (payload : value) : bool :=
  bool_decide (event = lit "issue_comment")
  && is_str (get_opt payload Key.action) (lit "created").

(** The runs of [webhook], stage by stage. *)
Definition webhook_runs (JSON_parse : bytes -> option json)
    (cfg : config) (w : world) (req : request) : action unit :=
  if unset (GITHUB_WEBHOOK_SECRET cfg) || unset (FEISHU_WEBHOOK_URL cfg) then
    ([respond 500 (lit "Server not configured")], Ok tt)
  else
    match verifyGitHubSignature cfg req with
    | Throw e => ([], Throw e)
    | Ok false => ([respond 401 (lit "Invalid signature")], Ok tt)
    | Ok true =>
        match JSON_parse (raw_body req) with
        | None => ([respond 400 (lit "Bad JSON")], Ok tt)
        | Some parsed =>
            let payload := J parsed in
            let event := header_or_empty (X_GitHub_Event req) in
            if negb (allowed (repo_of payload) (ALLOWED_REPOS cfg)) then
              ([respond 200 (lit "Ignored repo")], Ok tt)
            else if is_issues_closed event payload then
              issues_closed_runs cfg w (repo_of payload) payload
            else if is_comment_created event payload then
              issue_comment_created_runs cfg w (repo_of payload) payload
            else
              ([console_log [str (lit "Ignored Event"); str event; payload];
                respond 200 (lit "Ignored event")],
               Ok tt)
        end
    end.

Lemma webhook_eq JSON_parse cfg w req :
  webhook JSON_parse cfg w req = webhook_runs JSON_parse cfg w req.
Proof.
  unfold webhook, webhook_runs.
  destruct (unset _ || unset _); [reflexivity|].
  destruct (verifyGitHubSignature cfg req) as [[|]|e] eqn:Hsig; try reflexivity.
  rewrite bind_lift_Ok. cbn [negb].
  rewrite (verify_Ok_captured _ _ _ Hsig). cbn [parse_body].
  destruct (JSON_parse (raw_body req)) as [parsed|]; [|reflexivity].
  cbv zeta. fold (repo_of (J parsed)).
  destruct (negb (allowed _ _)); [reflexivity|].
  fold (is_issues_closed (header_or_empty (X_GitHub_Event req)) (J parsed)).
  fold (is_comment_created (header_or_empty (X_GitHub_Event req)) (J parsed)).
  destruct (is_issues_closed _ _) eqn:Hclosed.
  { apply andb_true_iff in Hclosed as [_ Hobj]. apply is_str_object in Hobj.
    now apply issues_closed_run. }
  destruct (is_comment_created _ _) eqn:Hcreated; [|reflexivity].
  apply andb_true_iff in Hcreated as [_ Hobj]. apply is_str_object in Hobj.
  now apply issue_comment_created_run.
Qed.

Lemma first_response_app t1 t2 :
  first_response t1 = None -> first_response (t1 ++ t2) = first_response t2.
Proof.
  induction t1 as [|e t1 IH]; [reflexivity|].
  destruct e; simpl; auto; discriminate.
Qed.

Lemma posts_app t1 t2 : posts (t1 ++ t2) = posts t1 ++ posts t2.
Proof.
  induction t1 as [|e t1 IH]; [reflexivity|].
  destruct e; simpl; auto. now rewrite IH.
Qed.

Lemma posts_delivery_log w : posts (delivery_log w) = [].
Proof.
  unfold delivery_log. destruct (downstream w) as [e|status text]; [reflexivity|].
  now destruct (resp_ok status).
Qed.

Lemma msg_sign_payload cfg w m : msg (sign_payload cfg w m) = m.
Proof. unfold sign_payload. now destruct (bool_decide _). Qed.

(** The two pairs that the router takes. *)
Definition recognized (event : jstr) (payload : value) : bool :=
  is_issues_closed event payload || is_comment_created event payload.

(** The rendering of a recognized pair gets to the response: none of the
    property reads, conversions and lookups that the branch makes before
    [res.status(202)] raises.  For a closed issue these are the reads of
    [issue.user], the lookup in the mapping, and the conversions of the
    opener, the number, the title and the sender; for a new comment, all that
    the text takes. *)
Definition renders (cfg : config) (event : jstr) (payload : value) : bool :=
  if is_issues_closed event payload then
    match closed_lookup cfg payload with
    | Ok (_, feishuUserId) => is_Ok (closed_lines payload feishuUserId)
    | Throw _ => false
    end
  else if is_comment_created event payload then
    is_Ok (comment_text (repo_of payload) payload)
  else true.

(** The one conversion that the branch of a closed issue makes after the
    response: that of the repository name, for the title of the post. *)
Definition title_renders (event : jstr) (payload : value) : bool :=
  if is_issues_closed event payload then is_Ok (closed_title (repo_of payload)) else true.

(** The log and the message of a recognized pair whose rendering gets to the
    response; there is no message when the title raises. *)
Definition notification (cfg : config) (event : jstr) (payload : value)
    : option (list effect * option message) :=
  if is_issues_closed event payload then
    match closed_lookup cfg payload with
    | Ok (key, feishuUserId) =>
        match closed_lines payload feishuUserId with
        | Ok lines =>
            Some ([closed_log key feishuUserId],
                  match closed_title (repo_of payload) with
                  | Ok title => Some (msg_post title lines)
                  | Throw _ => None
                  end)
        | Throw _ => None
        end
    | Throw _ => None
    end
  else if is_comment_created event payload then
    match comment_text (repo_of payload) payload with
    | Ok text => Some ([], Some (msg_text text))
    | Throw _ => None
    end
  else None.

(** The run of an event that passes the five stages and whose rendering
    gets to the response. *)
Definition accepted_run (cfg : config) (w : world) (log : list effect) (m : option message)
    : action unit :=
  match m with
  | Some m =>
      (log ++ respond 202 (lit "Accepted")
           :: fetch_post (FEISHU_WEBHOOK_URL cfg) (sign_payload cfg w m)
           :: delivery_log w,
       Ok tt)
  | None => (log ++ [respond 202 (lit "Accepted")], Throw TypeError)
  end.

Lemma webhook_accepted JSON_parse cfg req parsed log m :
  unset (GITHUB_WEBHOOK_SECRET cfg) || unset (FEISHU_WEBHOOK_URL cfg) = false ->
  verifyGitHubSignature cfg req = Ok true ->
  JSON_parse (raw_body req) = Some parsed ->
  allowed (repo_of (J parsed)) (ALLOWED_REPOS cfg) = true ->
  notification cfg (header_or_empty (X_GitHub_Event req)) (J parsed) = Some (log, m) ->
  forall w, webhook JSON_parse cfg w req = accepted_run cfg w log m.
Proof.
  intros Hcfg Hsig Hparse Hrepo Hnote w.
  rewrite webhook_eq. unfold webhook_runs.
  rewrite Hcfg, Hsig, Hparse, Hrepo. cbn [negb]. cbv zeta.
  unfold notification in Hnote.
  unfold issues_closed_runs, issue_comment_created_runs.
  destruct (is_issues_closed _ _).
  { destruct (closed_lookup cfg (J parsed)) as [[key feishuUserId]|]; [|discriminate].
    destruct (closed_lines _ _) as [lines|]; [|discriminate].
    injection Hnote as <- <-. now destruct (closed_title _). }
  destruct (is_comment_created _ _); [|discriminate].
  destruct (comment_text _ _) as [text|]; [|discriminate].
  now injection Hnote as <- <-.
Qed.

Lemma notification_of_renders cfg event payload :
  recognized event payload = true ->
  renders cfg event payload = true ->
  exists log m,
    notification cfg event payload = Some (log, m)
    /\ first_response log = None /\ posts log = []
    /\ (title_renders event payload = true -> is_Some m).
Proof.
  unfold recognized, renders, title_renders, notification.
  destruct (is_issues_closed _ _).
  { intros _. destruct (closed_lookup cfg payload) as [[key feishuUserId]|]; [|discriminate].
    destruct (closed_lines _ _) as [lines|]; [|discriminate]. intros _.
    do 2 eexists. repeat split.
    destruct (closed_title _); [eauto|discriminate]. }
  destruct (is_comment_created _ _); [|discriminate].
  intros _. destruct (comment_text _ _) as [text|]; [|discriminate]. intros _.
  do 2 eexists. repeat split. eauto.
Qed.

Lemma response_accepted_run cfg w log m :
  first_response log = None ->
  response (accepted_run cfg w log m) = Some (202%Z, lit "Accepted").
Proof.
  intros Hlog. unfold response, accepted_run.
  destruct m; cbn [fst]; now rewrite first_response_app.
Qed.

(** *** Concrete payloads

    In the text of a body, ['] stands for the double quote. *)

Definition quoted (s : string) : bytes :=
  map (fun c => if (c =? 39)%N then 34%N else c) (lit s).

Definition field (k : string) (v : json) : jstr * json := (lit k, v).

Definition text (s : string) : json := JStr (lit s).

(** An [issues] / [closed] event of [octo/repo], for an issue that
    [constructor] opened and [bob] closed. *)
Definition closed_body : bytes :=
  (quoted "{'action':'closed','repository':{'full_name':'octo/repo'},"
    ++ quoted "'issue':{'number':7,'title':'Crash on start',"
    ++ quoted "'html_url':'https://github.com/octo/repo/issues/7',"
    ++ quoted "'user':{'login':'constructor'}},'sender':{'login':'bob'}}").

Definition closed_payload : json :=
  JObj [field "action" (text "closed");
        field "repository" (JObj [field "full_name" (text "octo/repo")]);
        field "issue"
          (JObj [field "number" (JNum (int 7)); field "title" (text "Crash on start");
                 field "html_url" (text "https://github.com/octo/repo/issues/7");
                 field "user" (JObj [field "login" (text "constructor")])]);
        field "sender" (JObj [field "login" (text "bob")])].

(** The same event with no [user] in the issue. *)
Definition anonymous_body : bytes :=
  (quoted "{'action':'closed','repository':{'full_name':'octo/repo'},"
    ++ quoted "'issue':{'number':7,'title':'Crash on start',"
    ++ quoted "'html_url':'https://github.com/octo/repo/issues/7'},"
    ++ quoted "'sender':{'login':'bob'}}").

Definition anonymous_payload : json :=
  JObj [field "action" (text "closed");
        field "repository" (JObj [field "full_name" (text "octo/repo")]);
        field "issue"
          (JObj [field "number" (JNum (int 7)); field "title" (text "Crash on start");
                 field "html_url" (text "https://github.com/octo/repo/issues/7")]);
        field "sender" (JObj [field "login" (text "bob")])].

(** Two payloads of recognized pairs that lack what the renderer reads. *)
Definition bare_closed_body : bytes := quoted "{'action':'closed'}".
Definition bare_closed_payload : json := JObj [field "action" (text "closed")].

Definition bare_created_body : bytes :=
  quoted "{'action':'created','issue':{'number':7,'title':'Crash on start'}}".
Definition bare_created_payload : json :=
  JObj [field "action" (text "created");
        field "issue" (JObj [field "number" (JNum (int 7)); field "title" (text "Crash on start")])].

(** A closed issue of a repository whose [full_name] is not a string but an
    object with a [toString] of its own. *)
Definition unprintable_body : bytes :=
  (quoted "{'action':'closed','repository':{'full_name':{'toString':1}},"
    ++ quoted "'issue':{'number':7,'title':'Crash on start',"
    ++ quoted "'html_url':'https://github.com/octo/repo/issues/7',"
    ++ quoted "'user':{'login':'alice'}},'sender':{'login':'bob'}}").

Definition unprintable_payload : json :=
  JObj [field "action" (text "closed");
        field "repository" (JObj [field "full_name" (JObj [field "toString" (JNum (int 1))])]);
        field "issue"
          (JObj [field "number" (JNum (int 7)); field "title" (text "Crash on start");
                 field "html_url" (text "https://github.com/octo/repo/issues/7");
                 field "user" (JObj [field "login" (text "alice")])]);
        field "sender" (JObj [field "login" (text "bob")])].

(** An [issue_comment] / [created] event whose comment body is [n] times the
    letter [a], with neither sender nor commenter. *)
Definition created_body (n : nat) : bytes :=
  (quoted "{'action':'created','repository':{'full_name':'octo/repo'},"
    ++ quoted "'issue':{'number':7,'title':'Crash on start'},'comment':{'body':'")
  ++ repeat 97%N n
  ++ quoted "','html_url':'https://github.com/octo/repo/issues/7#c1'}}".

Definition created_payload (n : nat) : json :=
  JObj [field "action" (text "created");
        field "repository" (JObj [field "full_name" (text "octo/repo")]);
        field "issue" (JObj [field "number" (JNum (int 7)); field "title" (text "Crash on start")]);
        field "comment"
          (JObj [field "body" (JStr (repeat 97%N n));
                 field "html_url" (text "https://github.com/octo/repo/issues/7#c1")])].

(** What [JSON.parse] returns on these bodies. *)
Definition example_parse (b : bytes) : option json :=
  snd <$> find (fun entry => bool_decide (entry.1 = b))
    [(closed_body, closed_payload);
     (anonymous_body, anonymous_payload);
     (bare_closed_body, bare_closed_payload);
     (bare_created_body, bare_created_payload);
     (created_body 200, created_payload 200);
     (created_body 250, created_payload 250);
     (unprintable_body, unprintable_payload)].

(** The request that GitHub sends for an event, a delivery and a body. *)
Definition signed_request (secret : jstr) (event delivery : string) (body : bytes)
    : request :=
  Request (Some (expected_signature secret body))
          (Some (lit event)) (Some (lit delivery)) body.

Definition a_world : world :=
  World 1700000000123 (fetch_resolves 500 (Some (lit "oops"))).


(** ** C4: the status of the response *)

(** The status as the specification gives it: that of the first stage that
    fails, in the order configuration, signature, JSON, repository, route. *)
Definition spec_status (JSON_parse : bytes -> option json)
    (cfg : config) (req : request) : Z :=
  if unset (GITHUB_WEBHOOK_SECRET cfg) || unset (FEISHU_WEBHOOK_URL cfg) then 500
  else if negb (signature_valid cfg req) then 401
  else
    match JSON_parse (raw_body req) with
    | None => 400
    | Some parsed =>
        if negb (allowed (repo_of (J parsed)) (ALLOWED_REPOS cfg)) then 200
        else if recognized (header_or_empty (X_GitHub_Event req)) (J parsed) then 202
        else 200
    end.

(** A signature header that has the length of the expected one has as many
    bytes as characters. *)
Definition signature_comparable (cfg : config) (req : request) : Prop :=
  forall secret, GITHUB_WEBHOOK_SECRET cfg = Some secret ->
    let sig := header_or_empty (X_Hub_Signature_256 req) in
    length sig = length (expected_signature secret (raw_body req)) ->
    length (Buffer_from sig) = length sig.

Lemma ascii_signature_comparable cfg req :
  is_ascii (header_or_empty (X_Hub_Signature_256 req)) -> signature_comparable cfg req.
Proof. intros H secret _ sig _. unfold sig. now rewrite Buffer_from_ascii. Qed.

(** What the check of the signature needs in order not to raise, for a
    configured handler: a captured body and a comparable header. *)
Definition checkable (cfg : config) (req : request) : Prop :=
  unset (GITHUB_WEBHOOK_SECRET cfg) || unset (FEISHU_WEBHOOK_URL cfg) = false ->
  req_body req = Buffer (raw_body req) /\ signature_comparable cfg req.

(** A request gets to the router: the handler is configured, the signature
    is the expected one, the body is the JSON text of [parsed], and the
    repository is allowed. *)
Definition routed (JSON_parse : bytes -> option json)
    (cfg : config) (req : request) (parsed : json) : Prop :=
  unset (GITHUB_WEBHOOK_SECRET cfg) || unset (FEISHU_WEBHOOK_URL cfg) = false
  /\ signature_valid cfg req = true
  /\ JSON_parse (raw_body req) = Some parsed
  /\ allowed (repo_of (J parsed)) (ALLOWED_REPOS cfg) = true.

(** With a captured body and a comparable header, the check decides whether
    the header is the expected one. *)
Lemma verify_decides cfg req :
  unset (GITHUB_WEBHOOK_SECRET cfg) = false ->
  req_body req = Buffer (raw_body req) ->
  signature_comparable cfg req ->
  verifyGitHubSignature cfg req = Ok (signature_valid cfg req).
Proof.
  intros Hset Hbody Hcmp.
  destruct (signature_valid cfg req) eqn:Hvalid; [now apply verify_true_valid|].
  unfold signature_valid in Hvalid.
  destruct (GITHUB_WEBHOOK_SECRET cfg) as [secret|] eqn:Hs; [|discriminate].
  specialize (Hcmp secret Hs). cbv zeta in Hcmp.
  rewrite Hbody in Hvalid. apply bool_decide_eq_false in Hvalid.
  apply (verify_returns_false _ _ _ _ Hs Hbody).
  destruct (X_Hub_Signature_256 req) as [sig|]; [|now left]. simpl in *.
  destruct (decide (length sig = length (expected_signature secret (raw_body req))));
    [|now right; left].
  right; right. split; [congruence|auto].
Qed.

Lemma webhook_status JSON_parse cfg w req :
  checkable cfg req ->
  (forall parsed, routed JSON_parse cfg req parsed ->
     renders cfg (header_or_empty (X_GitHub_Event req)) (J parsed) = true) ->
  fst <$> response (webhook JSON_parse cfg w req) = Some (spec_status JSON_parse cfg req).
Proof.
  intros Hcheck Hrend. rewrite webhook_eq.
  unfold webhook_runs, spec_status, response, checkable, routed in *.
  destruct (unset _ || unset _) eqn:Hcfg; [reflexivity|].
  destruct (Hcheck eq_refl) as [Hbody Hcmp].
  apply orb_false_iff in Hcfg as [Hsecret _].
  rewrite (verify_decides _ _ Hsecret Hbody Hcmp).
  destruct (signature_valid cfg req); [|reflexivity]. cbn [negb].
  destruct (JSON_parse (raw_body req)) as [parsed|] eqn:Hparse; [|reflexivity].
  cbv zeta.
  destruct (allowed _ _) eqn:Hrepo; [|reflexivity]. cbn [negb].
  specialize (Hrend parsed (conj eq_refl (conj eq_refl (conj eq_refl Hrepo)))).
  unfold renders, recognized, issues_closed_runs, issue_comment_created_runs in *.
  destruct (is_issues_closed _ _).
  { destruct (closed_lookup cfg (J parsed)) as [[key feishuUserId]|]; [|discriminate].
    destruct (closed_lines _ _) as [lines|]; [|discriminate].
    now destruct (closed_title _). }
  destruct (is_comment_created _ _); [|reflexivity].
  now destruct (comment_text _ _).
Qed.

(** The counterexample of C4: a signed [issues] / [closed] event whose body
    is the JSON text [{"action":"closed"}] passes the five stages, so that
    the claim gives it 202; the handler reads [issue.user] of the missing
    issue, ends with a [TypeError] and sends no response. *)
Lemma C4_recognized_pair_without_issue :
  let req := signed_request docs_secret "issues" "d-1" bare_closed_body in
  spec_status example_parse docs_cfg req = 202%Z
  /\ webhook example_parse docs_cfg a_world req = ([], Throw TypeError).
Proof. vm_compute. split; reflexivity. Qed.

(** C4 (amended).  The status of the response is that of the first failing
    stage in the order configuration (500), signature (401), JSON (400),
    repository (200), route (200), and 202 when none fails, for every request
    that meets two conditions, each of which binds only the requests that get
    to the stage it is about.  When the handler is configured, [express.raw]
    has captured the body, and the signature header, when it has the length
    of the expected one, has as many bytes as characters.  When the request
    gets to the router and its pair is recognized, the rendering gets to the
    response.  The signature is checked on the raw body, before [JSON.parse]
    is called. *)
Theorem C4_status_of_first_failing_stage JSON_parse cfg w req :
  checkable cfg req ->
  (forall parsed, routed JSON_parse cfg req parsed ->
     renders cfg (header_or_empty (X_GitHub_Event req)) (J parsed) = true) ->
  fst <$> response (webhook JSON_parse cfg w req) = Some (spec_status JSON_parse cfg req).
Proof. exact (webhook_status JSON_parse cfg w req). Qed.

Lemma C4_status_of_first_failing_stage_witness :
  let req := signed_request docs_secret "issues" "d-1" closed_body in
  fst <$> response (webhook example_parse docs_cfg a_world req) = Some 202%Z.
Proof.
  intros req.
  apply (C4_status_of_first_failing_stage example_parse docs_cfg a_world req).
  - intros _. split; [reflexivity|].
    apply ascii_signature_comparable, expected_signature_ascii.
  - intros parsed (_ & _ & Hp & _). vm_compute in Hp. injection Hp as <-.
    vm_compute. reflexivity.
Defined.

(** The conditions bind no request that stops at an earlier stage: a request
    with another header than the expected one, whatever its body holds, and
    a request for a repository that is not allowed. *)
Example status_401 :
  fst <$> response (webhook example_parse docs_cfg a_world
                      (Request (Some mutated_ascii) (Some (lit "issues")) None bare_closed_body))
  = Some 401%Z.
Proof.
  apply (webhook_status example_parse docs_cfg a_world
           (Request (Some mutated_ascii) (Some (lit "issues")) None bare_closed_body)).
  - intros _. split; [reflexivity|]. apply ascii_signature_comparable.
    vm_compute. repeat constructor.
  - intros parsed (_ & Hvalid & _). vm_compute in Hvalid. discriminate.
Qed.

Example status_400 :
  fst <$> response (webhook example_parse docs_cfg a_world
                      (signed_request docs_secret "issues" "d-1" docs_body))
  = Some 400%Z.
Proof. vm_compute. reflexivity. Qed.

Example status_200_repo :
  fst <$> response (webhook example_parse
                      (Config (Some docs_secret) (Some feishu_url) [] {[ lit "a/b" ]}
                         (plain_object ∅))
                      a_world (signed_request docs_secret "issues" "d-1" bare_closed_body))
  = Some 200%Z.
Proof. vm_compute. reflexivity. Qed.

Example status_200_event :
  fst <$> response (webhook example_parse docs_cfg a_world
                      (signed_request docs_secret "push" "d-1" closed_body))
  = Some 200%Z.
Proof. vm_compute. reflexivity. Qed.

(** A request whose body has not been captured gets no status. *)
Example no_status_without_body :
  webhook example_parse docs_cfg a_world
    (mk_request (Some docs_signature) (Some (lit "issues")) None not_captured)
  = ([], Throw TypeError).
Proof. reflexivity. Qed.

(** ** C5: the response and the delivery *)

(** The counterexample of C5: a signed [issue_comment] / [created] event
    with no [comment] has a valid signature, an allowed repository and a
    recognized pair; the handler renders before it responds, the rendering
    ends with a [TypeError], and there is no response 202. *)
Lemma C5_accepted_event_without_comment :
  let req := signed_request docs_secret "issue_comment" "d-1" bare_created_body in
  verifyGitHubSignature docs_cfg req = Ok true
  /\ allowed (repo_of (J bare_created_payload)) (ALLOWED_REPOS docs_cfg) = true
  /\ recognized (lit "issue_comment") (J bare_created_payload) = true
  /\ response (webhook example_parse docs_cfg a_world req) = None
  /\ snd (webhook example_parse docs_cfg a_world req) = Throw TypeError.
Proof. vm_compute. repeat split. Qed.

Lemma accepted_response JSON_parse cfg req parsed :
  unset (GITHUB_WEBHOOK_SECRET cfg) || unset (FEISHU_WEBHOOK_URL cfg) = false ->
  verifyGitHubSignature cfg req = Ok true ->
  JSON_parse (raw_body req) = Some parsed ->
  allowed (repo_of (J parsed)) (ALLOWED_REPOS cfg) = true ->
  recognized (header_or_empty (X_GitHub_Event req)) (J parsed) = true ->
  renders cfg (header_or_empty (X_GitHub_Event req)) (J parsed) = true ->
  exists log m,
    first_response log = None /\ posts log = []
    /\ (title_renders (header_or_empty (X_GitHub_Event req)) (J parsed) = true -> is_Some m)
    /\ forall w,
         response (webhook JSON_parse cfg w req) = Some (202%Z, lit "Accepted")
         /\ webhook JSON_parse cfg w req = accepted_run cfg w log m.
Proof.
  intros Hcfg Hsig Hparse Hrepo Hrec Hrend.
  destruct (notification_of_renders _ _ _ Hrec Hrend)
    as (log & m & Hnote & Hlog & Hposts & Htitle).
  exists log, m. repeat split; try assumption.
  - rewrite (webhook_accepted _ _ _ _ _ _ Hcfg Hsig Hparse Hrepo Hnote w).
    now apply response_accepted_run.
  - exact (webhook_accepted _ _ _ _ _ _ Hcfg Hsig Hparse Hrepo Hnote w).
Qed.

(** C5 (amended).  For every accepted event (valid signature, allowed
    repository, recognized pair) whose rendering gets to the response,
    whatever the downstream call does: the response is 202 [Accepted]; the
    run is the log of the branch, which holds no response and no POST, then
    the response, and then either the one POST followed by the console entry
    of the delivery, which is the only place where a failed delivery shows,
    or a [TypeError] and no POST, when the title of the message cannot be
    rendered; which of the two does not depend on the downstream call, and it
    is the POST whenever the title renders. *)
Theorem C5_response_independent_of_delivery JSON_parse cfg req parsed :
  unset (GITHUB_WEBHOOK_SECRET cfg) || unset (FEISHU_WEBHOOK_URL cfg) = false ->
  verifyGitHubSignature cfg req = Ok true ->
  JSON_parse (raw_body req) = Some parsed ->
  allowed (repo_of (J parsed)) (ALLOWED_REPOS cfg) = true ->
  recognized (header_or_empty (X_GitHub_Event req)) (J parsed) = true ->
  renders cfg (header_or_empty (X_GitHub_Event req)) (J parsed) = true ->
  exists log m,
    first_response log = None /\ posts log = []
    /\ (title_renders (header_or_empty (X_GitHub_Event req)) (J parsed) = true -> is_Some m)
    /\ forall w,
         response (webhook JSON_parse cfg w req) = Some (202%Z, lit "Accepted")
         /\ webhook JSON_parse cfg w req
            = match m with
              | Some m =>
                  (log ++ respond 202 (lit "Accepted")
                       :: fetch_post (FEISHU_WEBHOOK_URL cfg) (sign_payload cfg w m)
                       :: delivery_log w,
                   Ok tt)
              | None => (log ++ [respond 202 (lit "Accepted")], Throw TypeError)
              end.
Proof. exact (accepted_response JSON_parse cfg req parsed). Qed.

(** A delivery that fails leaves one entry on the console, after the
    response. *)
Lemma delivery_error_logged w status body :
  downstream w = fetch_resolves status body ->
  resp_ok status = false ->
  delivery_log w
  = [console_error (lit "Feishu send failed:")
       (Error (lit "Feishu webhook failed: " ++ decimal status ++ lit " "
               ++ match body with Some b => b | None => [] end))].
Proof. intros H Hok. unfold delivery_log. now rewrite H, Hok. Qed.

Lemma C5_response_independent_of_delivery_witness :
  exists log m,
    first_response log = None /\ posts log = []
    /\ (true = true -> is_Some m)
    /\ forall w,
         let req := signed_request docs_secret "issues" "d-1" closed_body in
         response (webhook example_parse docs_cfg w req) = Some (202%Z, lit "Accepted")
         /\ webhook example_parse docs_cfg w req
            = match m with
              | Some m =>
                  (log ++ respond 202 (lit "Accepted")
                       :: fetch_post (FEISHU_WEBHOOK_URL docs_cfg) (sign_payload docs_cfg w m)
                       :: delivery_log w,
                   Ok tt)
              | None => (log ++ [respond 202 (lit "Accepted")], Throw TypeError)
              end.
Proof.
  apply (C5_response_independent_of_delivery example_parse docs_cfg
           (signed_request docs_secret "issues" "d-1" closed_body) closed_payload);
    vm_compute; reflexivity.
Defined.

(** The event whose title cannot be rendered: the response is 202, and the
    handler raises before the POST. *)
Example response_without_post :
  webhook example_parse docs_cfg a_world
    (signed_request docs_secret "issues" "d-1" unprintable_body)
  = ([console_log [str (lit "Issue closed by alice, feishuUserId:"); undefined];
      respond 202 (lit "Accepted")],
     Throw TypeError).
Proof. vm_compute. reflexivity. Qed.

(** ** C7: the truncation of the comment body *)

(** A comment body: a string, or missing ([null] or [undefined]). *)
Definition body_of (v : value) (body : option jstr) : Prop :=
  match body with
  | Some s => v = str s
  | None => nullish v = true
  end.

Lemma body_text_string (s : jstr) :
  body_text (str s)
  = Ok (if bool_decide (200 < length s) then take 200 s ++ lit "..." else s).
Proof.
  unfold body_text, str, slice_200, longer_than_200, or_else. cbn [and_then].
  case_bool_decide as Hlen.
  - destruct (take 200 s) eqn:Ht; [|reflexivity].
    apply (f_equal length) in Ht. rewrite length_take in Ht. cbn [length] in Ht. lia.
  - rewrite take_ge by lia. destruct s; cbn; now rewrite ?app_nil_r.
Qed.

Lemma body_text_missing (v : value) : nullish v = true -> body_text v = Ok [].
Proof. destruct v as [|[]| | |]; intros H; try discriminate; reflexivity. Qed.

(** The body as the claim has it rendered. *)
Definition truncated (body : option jstr) : jstr :=
  match body with
  | Some s => if bool_decide (200 < length s) then take 200 s ++ lit "..." else s
  | None => []
  end.

Lemma body_text_of v body : body_of v body -> body_text v = Ok (truncated body).
Proof.
  destruct body as [s|]; simpl.
  - intros ->. apply body_text_string.
  - apply body_text_missing.
Qed.

Lemma comment_run cfg w repo payload heading shown url :
  nullish payload = false ->
  nullish (get_opt payload Key.issue) = false ->
  nullish (get_opt payload Key.comment) = false ->
  comment_heading repo payload = Ok heading ->
  body_text (get_opt (get_opt payload Key.comment) Key.body) = Ok shown ->
  to_string (get_opt (get_opt payload Key.comment) Key.html_url) = Ok url ->
  issue_comment_created cfg w repo payload
  = (respond 202 (lit "Accepted")
       :: fetch_post (FEISHU_WEBHOOK_URL cfg)
            (sign_payload cfg w (msg_text (heading ++ shown ++ LF ++ url)))
       :: delivery_log w,
     Ok tt).
Proof.
  intros Hp Hi Hc Hh Hb Hu. rewrite issue_comment_created_run by assumption.
  unfold issue_comment_created_runs, comment_text. cbv zeta.
  now rewrite Hi, Hc, Hh, Hb, Hu.
Qed.

(** C7.  In the new-comment text the comment body stands between the
    heading and the line of the comment URL; a body longer than 200 is
    rendered as its first 200 characters followed by [...], a body of at most
    200 as it is, and a missing body as the empty string, the handler getting
    to its POST in each case.  The payload has an issue and a comment, and
    the other values of the text, those of the heading and the URL, can be
    rendered. *)
Theorem C7_comment_body_truncated cfg w repo payload body heading url :
  nullish payload = false ->
  nullish (get_opt payload Key.issue) = false ->
  nullish (get_opt payload Key.comment) = false ->
  comment_heading repo payload = Ok heading ->
  to_string (get_opt (get_opt payload Key.comment) Key.html_url) = Ok url ->
  body_of (get_opt (get_opt payload Key.comment) Key.body) body ->
  exists rendered,
    (forall s, body = Some s -> 200 < length s -> rendered = take 200 s ++ lit "...")
    /\ (forall s, body = Some s -> length s <= 200 -> rendered = s)
    /\ (body = None -> rendered = [])
    /\ issue_comment_created cfg w repo payload
       = (respond 202 (lit "Accepted")
            :: fetch_post (FEISHU_WEBHOOK_URL cfg)
                 (sign_payload cfg w (msg_text (heading ++ rendered ++ LF ++ url)))
            :: delivery_log w,
          Ok tt).
Proof.
  intros Hp Hi Hc Hh Hu Hb. exists (truncated body).
  split; [|split; [|split]].
  - intros s -> Hlen. simpl. now rewrite bool_decide_eq_true_2.
  - intros s -> Hlen. simpl. rewrite bool_decide_eq_false_2; [reflexivity|lia].
  - now intros ->.
  - apply comment_run; try assumption. now apply body_text_of.
Qed.

Lemma C7_comment_body_truncated_witness :
  exists rendered,
    (forall s, Some (repeat 97%N 250) = Some s -> 200 < length s ->
       rendered = take 200 s ++ lit "...")
    /\ (forall s, Some (repeat 97%N 250) = Some s -> length s <= 200 -> rendered = s)
    /\ (Some (repeat 97%N 250) = None -> rendered = [])
    /\ issue_comment_created docs_cfg a_world (str (lit "octo/repo")) (J (created_payload 250))
       = (respond 202 (lit "Accepted")
            :: fetch_post (FEISHU_WEBHOOK_URL docs_cfg)
                 (sign_payload docs_cfg a_world
                    (msg_text ((speech_balloon ++ lit " [octo/repo] Issue #7 "
                                ++ zh_new_comment ++ LF ++ lit "Crash on start" ++ LF
                                ++ lit "by unknown" ++ LF ++ LF)
                               ++ rendered ++ LF
                               ++ lit "https://github.com/octo/repo/issues/7#c1")))
            :: delivery_log a_world,
          Ok tt).
Proof.
  apply (C7_comment_body_truncated docs_cfg a_world (str (lit "octo/repo"))
           (J (created_payload 250)) (Some (repeat 97%N 250)));
    vm_compute; reflexivity.
Defined.

(** The two lengths of the specification, through the whole handler. *)
Example comment_of_250 :
  map msg (posts (fst (webhook example_parse docs_cfg a_world
                         (signed_request docs_secret "issue_comment" "d-1" (created_body 250)))))
  = [msg_text (speech_balloon ++ lit " [octo/repo] Issue #7 " ++ zh_new_comment ++ LF
               ++ lit "Crash on start" ++ LF ++ lit "by unknown" ++ LF ++ LF
               ++ repeat 97%N 200 ++ lit "..." ++ LF
               ++ lit "https://github.com/octo/repo/issues/7#c1")].
Proof. vm_compute. reflexivity. Qed.

Example comment_of_200 :
  map msg (posts (fst (webhook example_parse docs_cfg a_world
                         (signed_request docs_secret "issue_comment" "d-1" (created_body 200)))))
  = [msg_text (speech_balloon ++ lit " [octo/repo] Issue #7 " ++ zh_new_comment ++ LF
               ++ lit "Crash on start" ++ LF ++ lit "by unknown" ++ LF ++ LF
               ++ repeat 97%N 200 ++ LF
               ++ lit "https://github.com/octo/repo/issues/7#c1")].
Proof. vm_compute. reflexivity. Qed.

(** ** C8: the mention *)

Definition is_at (s : segment) : bool :=
  match s with
  | at_segment _ _ => true
  | _ => false
  end.

(** C8 (the code departs from the claim).  The claim: the message of a
    closed issue has a mention exactly when the identity mapping has an entry
    for the login of the opener.  The code: [USER_MAPPING[opener]] also finds
    what a plain object inherits.  With an empty mapping and an issue opened
    by the GitHub user [constructor], the lookup finds the function [Object],
    which is truthy, and the message ends with a mention that has no user id
    and the name [Object]. *)
Theorem C8_mention_without_mapping_entry :
  let req := signed_request docs_secret "issues" "d-1" closed_body in
  USER_MAPPING docs_cfg = plain_object ∅
  /\ opener_of (J closed_payload) = str (lit "constructor")
  /\ map msg (posts (fst (webhook example_parse docs_cfg a_world req)))
     = [msg_post (check_mark ++ lit " [octo/repo]")
          [text_segment (lit "Issue #7 " ++ zh_closed ++ LF);
           text_segment (lit "Crash on start" ++ LF);
           a_segment zh_details (str (lit "https://github.com/octo/repo/issues/7"));
           text_segment (LF ++ lit "by bob");
           text_segment LF;
           at_segment undefined (str (lit "Object"))]].
Proof. vm_compute. repeat split. Qed.

(** Outside the names that a plain object inherits, and for a mapping whose
    entries are objects, the claim holds: a mention exactly when the opener
    is mapped, in the last place, with the [id] and the [name] of the entry. *)
Lemma mention_iff_mapped (own : gmap jstr json) (key : jstr) :
  inherited key = undefined ->
  (forall j, own !! key = Some j -> truthy (J j) = true) ->
  (existsb is_at (mention (lookup_object own key)) = true <-> is_Some (own !! key))
  /\ (forall j, own !! key = Some j ->
        last (mention (lookup_object own key))
        = Some (at_segment (get_opt (J j) Key.id) (get_opt (J j) Key.name))).
Proof.
  intros Hinh Hobj. unfold mention, lookup_object.
  destruct (own !! key) as [j|] eqn:Hj.
  - rewrite (Hobj j eq_refl). split.
    + split; [eauto|reflexivity].
    + now intros ? [= <-].
  - rewrite Hinh. split; [|discriminate].
    split; [discriminate|]. now intros [? [=]].
Qed.

(** ** C9: missing attribution *)

(** The counterexample of C9: for a closed issue with no opener, the login
    of the opener is the empty string, on the console and as the key of the
    mapping; the message does not show it, and the word [unknown] is
    nowhere. *)
Lemma C9_missing_opener_is_empty :
  let req := signed_request docs_secret "issues" "d-1" anonymous_body in
  opener_of (J anonymous_payload) = str []
  /\ webhook example_parse docs_cfg (World 0 (fetch_resolves 200 None)) req
     = ([console_log [str (lit "Issue closed by , feishuUserId:"); undefined];
         respond 202 (lit "Accepted");
         fetch_post (Some feishu_url)
           (Outbound
              (msg_post (check_mark ++ lit " [octo/repo]")
                 [text_segment (lit "Issue #7 " ++ zh_closed ++ LF);
                  text_segment (lit "Crash on start" ++ LF);
                  a_segment zh_details (str (lit "https://github.com/octo/repo/issues/7"));
                  text_segment (LF ++ lit "by bob")])
              None None)],
        Ok tt).
Proof. vm_compute. split; reflexivity. Qed.

(** A login that is missing: no such person in the payload, no login, or an
    empty one. *)
Definition login_missing (who : value) : Prop := truthy (get_opt who Key.login) = false.

Lemma attribution_missing who : login_missing who -> attribution who = Ok (lit "unknown").
Proof. unfold login_missing, attribution, or_else. now intros ->. Qed.

Lemma opener_missing payload :
  login_missing (get_opt (get_opt payload Key.issue) Key.user) -> opener_of payload = str [].
Proof. unfold login_missing, opener_of, or_else. now intros ->. Qed.

Lemma missing_login_unknown cfg w repo payload :
  nullish payload = false ->
  let issue := get_opt payload Key.issue in
  let comment := get_opt payload Key.comment in
  (forall key feishuUserId number_text title_text repo_text,
     closed_lookup cfg payload = Ok (key, feishuUserId) ->
     to_string (get_opt issue Key.number) = Ok number_text ->
     to_string (get_opt issue Key.title) = Ok title_text ->
     to_string repo = Ok repo_text ->
     login_missing (get_opt payload Key.sender) ->
     issues_closed cfg w repo payload
     = (closed_log key feishuUserId
          :: respond 202 (lit "Accepted")
          :: fetch_post (FEISHU_WEBHOOK_URL cfg)
               (sign_payload cfg w
                  (msg_post (check_mark ++ lit " [" ++ repo_text ++ lit "]")
                     ([text_segment (lit "Issue #" ++ number_text ++ lit " " ++ zh_closed ++ LF);
                       text_segment (title_text ++ LF);
                       a_segment zh_details (get_opt issue Key.html_url);
                       text_segment (LF ++ lit "by unknown")]
                      ++ mention feishuUserId)))
          :: delivery_log w,
        Ok tt))
  /\ (forall repo_text number_text title_text shown url,
        nullish issue = false ->
        nullish comment = false ->
        to_string repo = Ok repo_text ->
        to_string (get_opt issue Key.number) = Ok number_text ->
        to_string (get_opt issue Key.title) = Ok title_text ->
        body_text (get_opt comment Key.body) = Ok shown ->
        to_string (get_opt comment Key.html_url) = Ok url ->
        login_missing (get_opt comment Key.user) ->
        issue_comment_created cfg w repo payload
        = (respond 202 (lit "Accepted")
             :: fetch_post (FEISHU_WEBHOOK_URL cfg)
                  (sign_payload cfg w
                     (msg_text
                        (speech_balloon ++ lit " [" ++ repo_text ++ lit "] Issue #"
                         ++ number_text ++ lit " " ++ zh_new_comment ++ LF
                         ++ title_text ++ LF
                         ++ lit "by unknown" ++ LF ++ LF
                         ++ shown ++ LF ++ url)))
             :: delivery_log w,
           Ok tt))
  /\ (nullish issue = false ->
      login_missing (get_opt issue Key.user) ->
      match lookup_mapping (USER_MAPPING cfg) [] with
      | Ok feishuUserId =>
          exists rest,
            fst (issues_closed cfg w repo payload)
            = console_log [str (lit "Issue closed by , feishuUserId:"); feishuUserId] :: rest
      | Throw _ => issues_closed cfg w repo payload = ([], Throw TypeError)
      end).
Proof.
  intros Hp issue comment. split; [|split].
  - intros key feishuUserId number_text title_text repo_text Hl Hn Ht Hr Hs.
    rewrite issues_closed_run by assumption.
    unfold issues_closed_runs, closed_lines, closed_title. cbv zeta. fold issue.
    now rewrite Hl, Hn, Ht, Hr, (attribution_missing _ Hs).
  - intros repo_text number_text title_text shown url Hi Hc Hr Hn Ht Hb Hu Hm.
    rewrite (comment_run cfg w repo payload
               (speech_balloon ++ lit " [" ++ repo_text ++ lit "] Issue #"
                ++ number_text ++ lit " " ++ zh_new_comment ++ LF
                ++ title_text ++ LF ++ lit "by unknown" ++ LF ++ LF) shown url);
      try assumption.
    + repeat rewrite <- app_assoc. reflexivity.
    + unfold comment_heading. cbv zeta. fold issue comment.
      now rewrite Hr, Hn, Ht, (attribution_missing _ Hm).
  - intros Hi Hm. rewrite issues_closed_run by assumption.
    unfold issues_closed_runs, closed_lookup. fold issue. rewrite Hi.
    rewrite (opener_missing _ Hm). cbn [to_string str json_to_string and_then].
    destruct (lookup_mapping (USER_MAPPING cfg) []) as [feishuUserId|e]; [|reflexivity].
    cbn [and_then].
    destruct (closed_lines _ _); [destruct (closed_title _)|]; eexists; reflexivity.
Qed.

(** C9 (amended).  A missing sender login in the message of a closed issue
    and a missing commenter login in the text of a new comment render as
    [unknown], the handler getting to its POST when the other values of the
    message can be rendered.  The login of the opener is not part of the
    message; when it is missing, the handler takes the empty string for it:
    the key of its lookup in the mapping is the empty string, and so is the
    login in its line on the console. *)
Theorem C9_missing_login_unknown cfg w repo payload :
  nullish payload = false ->
  let issue := get_opt payload Key.issue in
  let comment := get_opt payload Key.comment in
  (forall key feishuUserId number_text title_text repo_text,
     closed_lookup cfg payload = Ok (key, feishuUserId) ->
     to_string (get_opt issue Key.number) = Ok number_text ->
     to_string (get_opt issue Key.title) = Ok title_text ->
     to_string repo = Ok repo_text ->
     login_missing (get_opt payload Key.sender) ->
     issues_closed cfg w repo payload
     = (closed_log key feishuUserId
          :: respond 202 (lit "Accepted")
          :: fetch_post (FEISHU_WEBHOOK_URL cfg)
               (sign_payload cfg w
                  (msg_post (check_mark ++ lit " [" ++ repo_text ++ lit "]")
                     ([text_segment (lit "Issue #" ++ number_text ++ lit " " ++ zh_closed ++ LF);
                       text_segment (title_text ++ LF);
                       a_segment zh_details (get_opt issue Key.html_url);
                       text_segment (LF ++ lit "by unknown")]
                      ++ mention feishuUserId)))
          :: delivery_log w,
        Ok tt))
  /\ (forall repo_text number_text title_text shown url,
        nullish issue = false ->
        nullish comment = false ->
        to_string repo = Ok repo_text ->
        to_string (get_opt issue Key.number) = Ok number_text ->
        to_string (get_opt issue Key.title) = Ok title_text ->
        body_text (get_opt comment Key.body) = Ok shown ->
        to_string (get_opt comment Key.html_url) = Ok url ->
        login_missing (get_opt comment Key.user) ->
        issue_comment_created cfg w repo payload
        = (respond 202 (lit "Accepted")
             :: fetch_post (FEISHU_WEBHOOK_URL cfg)
                  (sign_payload cfg w
                     (msg_text
                        (speech_balloon ++ lit " [" ++ repo_text ++ lit "] Issue #"
                         ++ number_text ++ lit " " ++ zh_new_comment ++ LF
                         ++ title_text ++ LF
                         ++ lit "by unknown" ++ LF ++ LF
                         ++ shown ++ LF ++ url)))
             :: delivery_log w,
           Ok tt))
  /\ (nullish issue = false ->
      login_missing (get_opt issue Key.user) ->
      match lookup_mapping (USER_MAPPING cfg) [] with
      | Ok feishuUserId =>
          exists rest,
            fst (issues_closed cfg w repo payload)
            = console_log [str (lit "Issue closed by , feishuUserId:"); feishuUserId] :: rest
      | Throw _ => issues_closed cfg w repo payload = ([], Throw TypeError)
      end).
Proof. exact (missing_login_unknown cfg w repo payload). Qed.

(** A mapping that has an entry for the empty login and one for [unknown]. *)
Definition unknown_cfg : config :=
  Config (Some docs_secret) (Some feishu_url) [] ∅
    (plain_object {[ [] := JStr (lit "nobody"); lit "unknown" := JStr (lit "somebody") ]}).

(** The payload of a new comment with no commenter, read by both branches:
    it has neither sender nor opener. *)
Lemma C9_missing_login_unknown_witness :
  issues_closed unknown_cfg a_world (str (lit "octo/repo")) (J (created_payload 3))
  = ([console_log [str (lit "Issue closed by , feishuUserId:"); str (lit "nobody")];
      respond 202 (lit "Accepted");
      fetch_post (Some feishu_url)
        (Outbound
           (msg_post (check_mark ++ lit " [octo/repo]")
              [text_segment (lit "Issue #7 " ++ zh_closed ++ LF);
               text_segment (lit "Crash on start" ++ LF);
               a_segment zh_details undefined;
               text_segment (LF ++ lit "by unknown");
               text_segment LF;
               at_segment undefined undefined])
           None None);
      console_error (lit "Feishu send failed:")
        (Error (lit "Feishu webhook failed: 500 oops"))],
     Ok tt)
  /\ issue_comment_created unknown_cfg a_world (str (lit "octo/repo")) (J (created_payload 3))
     = ([respond 202 (lit "Accepted");
         fetch_post (Some feishu_url)
           (Outbound
              (msg_text
                 (speech_balloon ++ lit " [octo/repo] Issue #7 " ++ zh_new_comment ++ LF
                  ++ lit "Crash on start" ++ LF ++ lit "by unknown" ++ LF ++ LF
                  ++ lit "aaa" ++ LF ++ lit "https://github.com/octo/repo/issues/7#c1"))
              None None);
         console_error (lit "Feishu send failed:")
           (Error (lit "Feishu webhook failed: 500 oops"))],
        Ok tt)
  /\ exists rest,
       fst (issues_closed unknown_cfg a_world (str (lit "octo/repo")) (J (created_payload 3)))
       = console_log [str (lit "Issue closed by , feishuUserId:"); str (lit "nobody")] :: rest.
Proof.
  pose proof (C9_missing_login_unknown unknown_cfg a_world (str (lit "octo/repo"))
                (J (created_payload 3)) eq_refl) as (Hclosed & Hcreated & Hopener).
  split; [|split].
  - apply (Hclosed [] (str (lit "nobody")) (lit "7") (lit "Crash on start")
             (lit "octo/repo")); reflexivity.
  - apply (Hcreated (lit "octo/repo") (lit "7") (lit "Crash on start") (lit "aaa")
             (lit "https://github.com/octo/repo/issues/7#c1")); reflexivity.
  - apply Hopener; reflexivity.
Defined.

(** ** C10: no deduplication *)

Definition with_delivery (delivery : option jstr) (req : request) : request :=
  mk_request (X_Hub_Signature_256 req) (X_GitHub_Event req) delivery (req_body req).

(** The handler does not read the delivery identifier. *)
Lemma webhook_ignores_delivery JSON_parse cfg w req d1 d2 :
  webhook JSON_parse cfg w (with_delivery d1 req)
  = webhook JSON_parse cfg w (with_delivery d2 req).
Proof. reflexivity. Qed.

(** The counterexample of C10: a signed [issues] / [closed] event of an
    allowed repository, delivered twice under two identifiers.  Both
    deliveries are accepted and answered 202, and neither produces a
    notification: the name of the repository is an object that cannot be
    converted to a string, and the handler raises after the response, on the
    title of the message. *)
Lemma C10_accepted_deliveries_without_notification :
  let req := signed_request docs_secret "issues" "d-1" unprintable_body in
  let again := with_delivery (Some (lit "d-2")) req in
  verifyGitHubSignature docs_cfg req = Ok true
  /\ allowed (repo_of (J unprintable_payload)) (ALLOWED_REPOS docs_cfg) = true
  /\ recognized (lit "issues") (J unprintable_payload) = true
  /\ response (webhook example_parse docs_cfg a_world req) = Some (202%Z, lit "Accepted")
  /\ response (webhook example_parse docs_cfg a_world again) = Some (202%Z, lit "Accepted")
  /\ posts (fst (webhook example_parse docs_cfg a_world req)) = []
  /\ posts (fst (webhook example_parse docs_cfg a_world again)) = []
  /\ snd (webhook example_parse docs_cfg a_world req) = Throw TypeError.
Proof. vm_compute. repeat split. Qed.

Lemma no_deduplication JSON_parse cfg req parsed d1 d2 w1 w2 :
  unset (GITHUB_WEBHOOK_SECRET cfg) || unset (FEISHU_WEBHOOK_URL cfg) = false ->
  verifyGitHubSignature cfg req = Ok true ->
  JSON_parse (raw_body req) = Some parsed ->
  allowed (repo_of (J parsed)) (ALLOWED_REPOS cfg) = true ->
  recognized (header_or_empty (X_GitHub_Event req)) (J parsed) = true ->
  renders cfg (header_or_empty (X_GitHub_Event req)) (J parsed) = true ->
  title_renders (header_or_empty (X_GitHub_Event req)) (J parsed) = true ->
  let first := webhook JSON_parse cfg w1 (with_delivery d1 req) in
  let second := webhook JSON_parse cfg w2 (with_delivery d2 req) in
  exists m,
    response first = Some (202%Z, lit "Accepted")
    /\ response second = Some (202%Z, lit "Accepted")
    /\ map msg (posts (fst first)) = [m]
    /\ map msg (posts (fst second)) = [m]
    /\ snd first = Ok tt /\ snd second = Ok tt.
Proof.
  intros Hcfg Hsig Hparse Hrepo Hrec Hrend Htitle first second.
  destruct (accepted_response JSON_parse cfg (with_delivery d1 req) parsed
              Hcfg Hsig Hparse Hrepo Hrec Hrend)
    as (log & m & Hlog & Hposts & Hm & Hrun).
  destruct (Hm Htitle) as [m' ->]. exists m'.
  destruct (Hrun w1) as [Hr1 He1].
  assert (Hrun2 := Hrun w2).
  rewrite (webhook_ignores_delivery _ _ w2 req d1 d2) in Hrun2. destruct Hrun2 as [Hr2 He2].
  unfold first, second. rewrite He1, He2 in *.
  split; [exact Hr1|]. split; [exact Hr2|].
  unfold accepted_run. cbn [fst snd]. rewrite !posts_app, Hposts. cbn [posts app].
  rewrite !posts_delivery_log. cbn [map]. rewrite !msg_sign_payload. auto.
Qed.

(** C10 (amended).  The handler keeps nothing from one delivery to the
    next, and it does not read the delivery identifier.  An event is accepted
    when its signature is valid, its body is JSON, its repository is allowed
    and its pair is recognized.  For two deliveries of an accepted event
    whose message can be rendered, that differ in the delivery identifier at
    most, at whatever time and with whatever downstream outcome each of them
    runs: both are answered 202 [Accepted], and each run makes one POST, with
    the same message, and ends well. *)
Theorem C10_no_deduplication JSON_parse cfg req parsed d1 d2 w1 w2 :
  unset (GITHUB_WEBHOOK_SECRET cfg) || unset (FEISHU_WEBHOOK_URL cfg) = false ->
  verifyGitHubSignature cfg req = Ok true ->
  JSON_parse (raw_body req) = Some parsed ->
  allowed (repo_of (J parsed)) (ALLOWED_REPOS cfg) = true ->
  recognized (header_or_empty (X_GitHub_Event req)) (J parsed) = true ->
  renders cfg (header_or_empty (X_GitHub_Event req)) (J parsed) = true ->
  title_renders (header_or_empty (X_GitHub_Event req)) (J parsed) = true ->
  let first := webhook JSON_parse cfg w1 (with_delivery d1 req) in
  let second := webhook JSON_parse cfg w2 (with_delivery d2 req) in
  exists m,
    response first = Some (202%Z, lit "Accepted")
    /\ response second = Some (202%Z, lit "Accepted")
    /\ map msg (posts (fst first)) = [m]
    /\ map msg (posts (fst second)) = [m]
    /\ snd first = Ok tt /\ snd second = Ok tt.
Proof. exact (no_deduplication JSON_parse cfg req parsed d1 d2 w1 w2). Qed.

Lemma C10_no_deduplication_witness :
  let req := signed_request docs_secret "issue_comment" "d-1" (created_body 250) in
  let later := World 1700000999000 (fetch_rejects TypeError) in
  let first := webhook example_parse docs_cfg a_world (with_delivery (Some (lit "d-1")) req) in
  let second := webhook example_parse docs_cfg later (with_delivery (Some (lit "d-2")) req) in
  exists m,
    response first = Some (202%Z, lit "Accepted")
    /\ response second = Some (202%Z, lit "Accepted")
    /\ map msg (posts (fst first)) = [m]
    /\ map msg (posts (fst second)) = [m]
    /\ snd first = Ok tt /\ snd second = Ok tt.
Proof.
  intros req later.
  apply (C10_no_deduplication example_parse docs_cfg req (created_payload 250)
           (Some (lit "d-1")) (Some (lit "d-2")) a_world later);
    vm_compute; reflexivity.
Defined.

(** * Further properties of [main.js] and of its earlier version *)

(** ** The allow-list of the environment

    [new Set((process.env.ALLOWED_REPOS || "").split(",").map((s) => s.trim())
    .filter(Boolean))]. *)

(** [s.split(",")]: the pieces between the commas, one more than there are
    commas. *)
Fixpoint split_comma (s : jstr) : list jstr :=
  match s with
  | [] => [[]]
  | c :: rest =>
      if (c =? 44)%N then [] :: split_comma rest
      else
        match split_comma rest with
        | piece :: pieces => (c :: piece) :: pieces
        | [] => [[c]]
        end
  end.

(** The white space and the line terminators of ECMAScript, which [trim]
    removes. *)
Definition is_whitespace (u : N) : bool :=
  bool_decide (u ∈ [0x09; 0x0A; 0x0B; 0x0C; 0x0D; 0x20; 0xA0; 0x1680; 0x2028; 0x2029;
                    0x202F; 0x205F; 0x3000; 0xFEFF]%N)
  || ((0x2000 <=? u) && (u <=? 0x200A))%N.

Fixpoint trim_start (s : jstr) : jstr :=
  match s with
  | u :: rest => if is_whitespace u then trim_start rest else s
  | [] => []
  end.

(** [s.trim()]. *)
Definition trim (s : jstr) : jstr := rev (trim_start (rev (trim_start s))).

Definition non_empty (s : jstr) : bool :=
  match s with
  | [] => false
  | _ :: _ => true
  end.

Definition load_ALLOWED_REPOS (env : option jstr) : gset jstr :=
  list_to_set
    (List.filter non_empty
       (map trim (split_comma (match env with Some s => s | None => [] end)))).

Example load_ALLOWED_REPOS_example :
  load_ALLOWED_REPOS (Some (lit " octo/repo ,,a/b,  "))
  = {[ lit "octo/repo"; lit "a/b" ]}.
Proof. vm_compute. reflexivity. Qed.

(** *** [split] and [trim] *)

Lemma split_comma_not_nil s : split_comma s <> [].
Proof.
  destruct s as [|c rest]; simpl; [discriminate|].
  destruct (c =? 44)%N; [discriminate|].
  destruct (split_comma rest); discriminate.
Qed.

(** No piece holds a comma. *)
Lemma split_comma_pieces s : Forall (fun piece => 44%N ∉ piece) (split_comma s).
Proof.
  induction s as [|c rest IH]; simpl.
  - repeat constructor. apply not_elem_of_nil.
  - destruct (N.eqb_spec c 44) as [->|Hc].
    + constructor; [apply not_elem_of_nil|exact IH].
    + destruct (split_comma rest) as [|piece pieces]; [repeat constructor|].
      * intros H. apply list_elem_of_singleton in H. congruence.
      * inversion IH as [|? ? Hp Hps]; subst. constructor; [|exact Hps].
        intros H. apply elem_of_cons in H as [H|H]; [congruence|contradiction].
Qed.

(** The pieces of a list of comma-free strings joined by commas are these
    strings. *)
Lemma split_comma_join (pieces : list jstr) :
  pieces <> [] ->
  Forall (fun piece => 44%N ∉ piece) pieces ->
  split_comma (join (lit ",") pieces) = pieces.
Proof.
  assert (Hone : forall piece : jstr, 44%N ∉ piece -> split_comma piece = [piece]).
  { induction piece as [|c rest IH]; intros Hc; [reflexivity|]. simpl.
    destruct (N.eqb_spec c 44) as [->|_]; [exfalso; apply Hc; left|].
    rewrite IH; [reflexivity|]. intros H. apply Hc. now right. }
  assert (Hcons : forall (piece : jstr) rest,
             44%N ∉ piece ->
             split_comma (piece ++ lit "," ++ rest) = piece :: split_comma rest).
  { induction piece as [|c p IH]; intros rest Hc; [reflexivity|].
    cbn [app split_comma].
    destruct (N.eqb_spec c 44) as [->|_]; [exfalso; apply Hc; left|].
    rewrite IH; [reflexivity|]. intros H. apply Hc. now right. }
  induction pieces as [|piece pieces IH]; intros Hne Hall; [contradiction|].
  inversion Hall as [|? ? Hp Hps]; subst.
  destruct pieces as [|piece' pieces'].
  - simpl. now apply Hone.
  - change (join (lit ",") (piece :: piece' :: pieces'))
      with (piece ++ lit "," ++ join (lit ",") (piece' :: pieces')).
    rewrite Hcons by assumption. f_equal. now apply IH.
Qed.

(** What [trim_start] removes is white space, and what is left does not
    start with white space. *)
Lemma trim_start_spec s :
  exists removed,
    s = removed ++ trim_start s
    /\ Forall (fun u => is_whitespace u = true) removed
    /\ (forall u, head (trim_start s) = Some u -> is_whitespace u = false).
Proof.
  induction s as [|u rest (removed & Hs & Hws & Hhead)].
  - exists []. repeat split; [constructor|discriminate].
  - simpl. destruct (is_whitespace u) eqn:Hu.
    + exists (u :: removed). repeat split;
        [simpl; now f_equal|now constructor|exact Hhead].
    + exists []. repeat split; [constructor|]. now intros ? [= <-].
Qed.

Lemma trim_start_id s :
  (forall u, head s = Some u -> is_whitespace u = false) -> trim_start s = s.
Proof. destruct s as [|u rest]; [reflexivity|]. simpl. intros H. now rewrite (H u). Qed.

Lemma trim_start_whitespace (ws rest : jstr) :
  Forall (fun u => is_whitespace u = true) ws -> trim_start (ws ++ rest) = trim_start rest.
Proof. induction 1 as [|u ws Hu _ IH]; [reflexivity|]. simpl. now rewrite Hu. Qed.

(** A string that neither starts nor ends with white space. *)
Definition trimmed (s : jstr) : Prop :=
  (forall u, head s = Some u -> is_whitespace u = false)
  /\ (forall u, last s = Some u -> is_whitespace u = false).

Lemma head_rev {A} (l : list A) : head (rev l) = last l.
Proof.
  induction l as [|x l IH] using rev_ind; [reflexivity|].
  now rewrite rev_app_distr, last_snoc.
Qed.

Lemma last_rev {A} (l : list A) : last (rev l) = head l.
Proof. rewrite <- head_rev. now rewrite rev_involutive. Qed.

Lemma trim_surrounded (before name after : jstr) :
  Forall (fun u => is_whitespace u = true) before ->
  Forall (fun u => is_whitespace u = true) after ->
  trimmed name ->
  trim (before ++ name ++ after) = name.
Proof.
  intros Hb Ha [Hhead Hlast]. unfold trim.
  rewrite trim_start_whitespace by assumption.
  destruct name as [|u name'].
  - simpl.
    assert (Hall : trim_start after = []).
    { rewrite <- (app_nil_r after). now rewrite trim_start_whitespace. }
    rewrite Hall. reflexivity.
  - rewrite (trim_start_id ((u :: name') ++ after)) by (intros ? [= <-]; now apply Hhead).
    rewrite rev_app_distr.
    rewrite trim_start_whitespace by now apply Forall_rev.
    rewrite trim_start_id; [apply rev_involutive|].
    intros x Hx. rewrite head_rev in Hx. now apply Hlast.
Qed.

Lemma trim_infix s : exists before after, s = before ++ trim s ++ after.
Proof.
  unfold trim.
  destruct (trim_start_spec s) as (before & Hs & _ & _).
  destruct (trim_start_spec (rev (trim_start s))) as (removed & Hr & _ & _).
  exists before, (rev removed).
  rewrite <- rev_app_distr, <- Hr, rev_involutive. exact Hs.
Qed.

Lemma trim_trimmed s : trimmed (trim s).
Proof.
  unfold trim.
  destruct (trim_start_spec s) as (_ & _ & _ & Hhead).
  destruct (trim_start_spec (rev (trim_start s))) as (removed & Hr & _ & Hhead').
  set (t := trim_start s) in *. set (x := trim_start (rev t)) in *.
  split; intros u Hu.
  - rewrite head_rev in Hu. apply Hhead.
    rewrite <- last_rev, Hr.
    rewrite last_app. now rewrite Hu.
  - rewrite last_rev in Hu. now apply Hhead'.
Qed.

(** *** What the allow-list holds *)

Lemma load_ALLOWED_REPOS_entry (env : option jstr) (r : jstr) :
  r ∈ load_ALLOWED_REPOS env ->
  r <> [] /\ (44%N ∉ r) /\ trimmed r.
Proof.
  unfold load_ALLOWED_REPOS. rewrite elem_of_list_to_set, list_elem_of_In, filter_In.
  intros [Hin Hne]. apply in_map_iff in Hin as (piece & <- & Hpiece).
  split; [now destruct (trim piece)|]. split; [|apply trim_trimmed].
  pose proof (split_comma_pieces (match env with Some s => s | None => [] end)) as Hall.
  rewrite Forall_forall in Hall. apply list_elem_of_In in Hpiece.
  specialize (Hall piece Hpiece).
  destruct (trim_infix piece) as (before & after & Heq).
  intros Hc. apply Hall. rewrite Heq, !elem_of_app. auto.
Qed.


(** Every entry of the allow-list is a non-empty name that holds no comma
    and neither starts nor ends with white space. *)
Theorem ALLOWED_REPOS_entries (env : option jstr) (r : jstr) :
  r ∈ load_ALLOWED_REPOS env ->
  r <> [] /\ (44%N ∉ r) /\ trimmed r.
Proof. exact (load_ALLOWED_REPOS_entry env r). Qed.

Lemma ALLOWED_REPOS_entries_witness :
  lit "a/b" <> [] /\ (44%N ∉ lit "a/b") /\ trimmed (lit "a/b").
Proof.
  apply (ALLOWED_REPOS_entries (Some (lit " octo/repo ,,a/b,  "))).
  vm_compute. reflexivity.
Defined.

(** An entry as one writes it in the environment: a name, with white space
    around it. *)
Record entry : Type := Entry { before : jstr; name : jstr; after : jstr }.

Definition written (e : entry) : jstr := before e ++ name e ++ after e.

Definition well_written (e : entry) : Prop :=
  Forall (fun u => is_whitespace u = true) (before e)
  /\ Forall (fun u => is_whitespace u = true) (after e)
  /\ name e <> [] /\ (44%N ∉ name e) /\ trimmed (name e).

Lemma well_written_piece e :
  well_written e -> (44%N ∉ written e) /\ trim (written e) = name e.
Proof.
  intros (Hb & Ha & _ & Hc & Ht). split; [|now apply trim_surrounded].
  assert (Hws : forall ws, Forall (fun u => is_whitespace u = true) ws -> 44%N ∉ ws).
  { intros ws Hws H. rewrite Forall_forall in Hws. now specialize (Hws _ H). }
  unfold written. rewrite !elem_of_app. intros [H|[H|H]]; [|contradiction|].
  - now apply (Hws _ Hb).
  - now apply (Hws _ Ha).
Qed.

(** The allow-list read from names written with commas between them, each
    with white space around it or not, is the set of these names. *)
Theorem ALLOWED_REPOS_listed (entries : list entry) :
  Forall well_written entries ->
  load_ALLOWED_REPOS (Some (join (lit ",") (map written entries)))
  = list_to_set (map name entries).
Proof.
  intros Hall. unfold load_ALLOWED_REPOS.
  destruct entries as [|e entries]; [reflexivity|].
  rewrite split_comma_join.
  - f_equal. induction Hall as [|e' es He _ IH]; [reflexivity|].
    cbn [map List.filter].
    destruct (well_written_piece e' He) as [_ ->].
    destruct He as (_ & _ & Hne & _). destruct (name e'); [contradiction|].
    simpl. now rewrite IH.
  - discriminate.
  - apply Forall_map. eapply Forall_impl; [exact Hall|].
    intros e' He. now apply well_written_piece.
Qed.

Lemma well_written_intro (b n a : jstr) :
  forallb is_whitespace b = true -> forallb is_whitespace a = true ->
  n <> [] -> (44%N ∉ n) -> trimmed n -> well_written (Entry b n a).
Proof.
  intros Hb Ha Hn Hc Ht. unfold well_written. cbn [before name after].
  rewrite forallb_forall in Hb, Ha.
  repeat split; try assumption; try apply Ht;
    apply Forall_forall; intros u Hu; [apply Hb|apply Ha]; now apply list_elem_of_In.
Qed.

Lemma ALLOWED_REPOS_listed_witness :
  load_ALLOWED_REPOS
    (Some (join (lit ",")
             (map written [Entry [] (lit "octo/repo") [];
                           Entry (lit " ") (lit "a/b") (lit " ")])))
  = list_to_set (map name [Entry [] (lit "octo/repo") [];
                           Entry (lit " ") (lit "a/b") (lit " ")]).
Proof.
  apply ALLOWED_REPOS_listed.
  constructor; [|constructor; [|constructor]];
    (apply well_written_intro;
     [reflexivity | reflexivity | discriminate
     | intros H; vm_compute in H;
       repeat (apply elem_of_cons in H as [H|H]; [discriminate|]); inversion H
     | split; intros u Hu; vm_compute in Hu; injection Hu as <-; reflexivity]).
Defined.

(** With an allow-list read from the environment that is not empty, an event
    whose payload names no repository is ignored: the handler takes the empty
    string for the name, and the allow-list never holds it. *)
Theorem unnamed_repository_ignored JSON_parse cfg w req parsed env :
  unset (GITHUB_WEBHOOK_SECRET cfg) || unset (FEISHU_WEBHOOK_URL cfg) = false ->
  verifyGitHubSignature cfg req = Ok true ->
  JSON_parse (raw_body req) = Some parsed ->
  truthy (get_opt (get_opt (J parsed) Key.repository) Key.full_name) = false ->
  ALLOWED_REPOS cfg = load_ALLOWED_REPOS env ->
  ALLOWED_REPOS cfg <> ∅ ->
  webhook JSON_parse cfg w req = ([respond 200 (lit "Ignored repo")], Ok tt).
Proof.
  intros Hcfg Hsig Hparse Hname Henv Hne.
  rewrite webhook_eq. unfold webhook_runs. rewrite Hcfg, Hsig, Hparse. cbv zeta.
  replace (allowed (repo_of (J parsed)) (ALLOWED_REPOS cfg)) with false; [reflexivity|].
  symmetry. apply not_true_iff_false.
  unfold repo_of, or_else. rewrite Hname. rewrite allowed_iff.
  intros [H|H]; [contradiction|].
  rewrite Henv in H. now apply load_ALLOWED_REPOS_entry in H as [H _].
Qed.

Lemma unnamed_repository_ignored_witness :
  webhook example_parse
    (Config (Some docs_secret) (Some feishu_url) [] {[ lit "octo/repo" ]} (plain_object ∅))
    a_world (signed_request docs_secret "issues" "d-1" bare_closed_body)
  = ([respond 200 (lit "Ignored repo")], Ok tt).
Proof.
  apply (unnamed_repository_ignored example_parse _ a_world _ bare_closed_payload
           (Some (lit "octo/repo")));
    try (vm_compute; reflexivity).
  intros H. apply (f_equal size) in H. vm_compute in H. discriminate.
Defined.

(** ** The outcomes of the inbound check *)

Lemma length_big_endian n x : length (SHA256.big_endian n x) = n.
Proof.
  revert x. induction n as [|n IH]; intros x; [reflexivity|].
  simpl. rewrite length_app, IH. simpl. lia.
Qed.

(** A digest has 32 bytes. *)
Lemma length_digest msg : length (SHA256.digest msg) = 32.
Proof.
  unfold SHA256.digest. destruct (SHA256.blocks _ _ _).
  cbn [flat_map]. rewrite !length_app, !length_big_endian. reflexivity.
Qed.

(** The expected header has 71 characters: the tag and 64 digits. *)
Lemma length_expected_signature secret body :
  length (expected_signature secret body) = 71.
Proof.
  unfold expected_signature, HMAC_SHA256.
  rewrite length_app, length_hex, length_digest. reflexivity.
Qed.

Definition all_ascii (s : jstr) : bool := forallb (fun u => (u <? 128)%N) s.

Lemma all_ascii_spec s : all_ascii s = true <-> is_ascii s.
Proof.
  unfold all_ascii, is_ascii. rewrite forallb_forall, Forall_forall.
  split; intros H u Hu.
  - apply N.ltb_lt, H. now apply list_elem_of_In.
  - apply N.ltb_lt, H. now apply list_elem_of_In.
Qed.

(** The encoding has at least one byte per character, and more when a
    character is not ASCII. *)
Lemma length_Buffer_from (s : jstr) :
  length s <= length (Buffer_from s)
  /\ (length (Buffer_from s) = length s -> is_ascii s).
Proof.
  remember (length s) as n eqn:Hn. revert s Hn.
  induction n as [n IH] using lt_wf_ind. intros s ->.
  destruct s as [|u rest]; [split; [reflexivity|constructor]|].
  destruct (IH (length rest) ltac:(simpl; lia) rest eq_refl) as [IHle IHeq].
  cbn [Buffer_from].
  destruct (N.ltb_spec u 0x80) as [Hu|Hu].
  { cbn [length]. split; [lia|].
    intros H. constructor; [exact Hu|]. apply IHeq. lia. }
  destruct (u <? 0x800)%N.
  { rewrite length_app. cbn [length]. split; lia. }
  destruct (is_high_surrogate u).
  - destruct rest as [|v rest']; [cbn [length]; split; lia|].
    destruct (is_low_surrogate v).
    + destruct (IH (length rest') ltac:(simpl; lia) rest' eq_refl) as [IHle' _].
      rewrite length_app. cbn [length utf8_4] in *. split; lia.
    + rewrite length_app. cbn [length] in *. split; lia.
  - destruct (is_low_surrogate u); rewrite length_app; cbn [length utf8_3]; split; lia.
Qed.

Lemma Buffer_from_same_length (s : jstr) :
  length (Buffer_from s) = length s <-> is_ascii s.
Proof.
  split; [apply length_Buffer_from|]. intros H. now rewrite Buffer_from_ascii.
Qed.

(** The check, case by case. *)
Lemma verify_cases cfg req secret :
  GITHUB_WEBHOOK_SECRET cfg = Some secret ->
  let sig := header_or_empty (X_Hub_Signature_256 req) in
  verifyGitHubSignature cfg req
  = match req_body req with
    | not_captured => Throw TypeError
    | Buffer body =>
        if bool_decide (length sig = 71) then
          if all_ascii sig
          then Ok (bool_decide (sig = expected_signature secret body))
          else Throw RangeError
        else Ok false
    end.
Proof.
  intros Hs sig. rewrite (verifyGitHubSignature_unfold _ _ _ Hs).
  destruct (req_body req) as [body|]; [|reflexivity]. cbv zeta.
  fold sig. rewrite length_expected_signature.
  case_bool_decide as Hnil.
  { rewrite Hnil. reflexivity. }
  case_bool_decide as Hlen; [|reflexivity]. cbn [negb orb].
  unfold timingSafeEqual. rewrite length_expected_signature.
  destruct (all_ascii sig) eqn:Hascii.
  - apply all_ascii_spec in Hascii. rewrite (Buffer_from_ascii _ Hascii).
    now rewrite (bool_decide_eq_true_2 _ Hlen).
  - rewrite bool_decide_eq_false_2; [reflexivity|].
    intros Hbytes. apply not_true_iff_false in Hascii. apply Hascii.
    apply all_ascii_spec, Buffer_from_same_length. congruence.
Qed.


(** The four outcomes of the check when a secret is configured: a
    [TypeError] when the body has not been captured, whatever the header;
    and for a captured body, [false] on a header that has not 71 characters
    (a missing one among them), a [RangeError] on a header of 71 characters
    that are not all ASCII, and on an ASCII header of 71 characters whether
    it is the expected one. *)
Theorem verify_outcomes cfg req secret :
  GITHUB_WEBHOOK_SECRET cfg = Some secret ->
  let sig := header_or_empty (X_Hub_Signature_256 req) in
  verifyGitHubSignature cfg req
  = match req_body req with
    | not_captured => Throw TypeError
    | Buffer body =>
        if bool_decide (length sig = 71) then
          if all_ascii sig
          then Ok (bool_decide (sig = expected_signature secret body))
          else Throw RangeError
        else Ok false
    end.
Proof. exact (verify_cases cfg req secret). Qed.

Lemma verify_outcomes_witness :
  verifyGitHubSignature docs_cfg (Request (Some (lit "sha256=abc")) None None docs_body)
  = Ok false.
Proof.
  exact (verify_outcomes docs_cfg (Request (Some (lit "sha256=abc")) None None docs_body)
           docs_secret eq_refl).
Defined.

(** ** The outbound signature and the senders *)

(** The characters of base64: letters, digits, [+], [/] and the padding [=]. *)
Definition is_base64 (u : N) : bool :=
  ((65 <=? u) && (u <=? 90) || (97 <=? u) && (u <=? 122) || (48 <=? u) && (u <=? 57)
   || (u =? 43) || (u =? 47) || (u =? 61))%N.

Lemma base64_char_alphabet n : is_base64 (base64_char n) = true.
Proof.
  unfold base64_char, is_base64.
  destruct (N.ltb_spec n 26); [|destruct (N.ltb_spec n 52); [|destruct (N.ltb_spec n 62);
    [|destruct (N.eqb_spec n 62)]]];
    repeat match goal with
           | |- context [(?a <=? ?b)%N] => destruct (N.leb_spec a b); try lia
           | |- context [(?a =? ?b)%N] => destruct (N.eqb_spec a b); try lia
           end; reflexivity.
Qed.

(** The [sign] of an outbound payload is a string of 44 characters of
    base64, the last of which, and only the last, is the padding. *)
Theorem feishuSign_shape (timestampSec secret : jstr) :
  exists digits,
    feishuSign timestampSec secret = digits ++ lit "="
    /\ length digits = 43
    /\ Forall (fun u => is_base64 u = true /\ u <> 61%N) digits.
Proof.
  unfold feishuSign, HMAC_SHA256, SHA256.digest.
  destruct (SHA256.blocks _ _ _) as [a b c d e f g h].
  cbn [flat_map SHA256.big_endian app base64].
  match goal with
  | |- exists digits, ?l = _ /\ _ => exists (removelast l)
  end.
  split; [reflexivity|split; [reflexivity|]].
  cbn [removelast].
  assert (Hdigit : forall n, is_base64 (base64_char n) = true /\ base64_char n <> 61%N).
  { intros n. split; [apply base64_char_alphabet|].
    unfold base64_char.
    repeat match goal with
           | |- context [(?a <? ?b)%N] => destruct (N.ltb_spec a b)
           | |- context [(?a =? ?b)%N] => destruct (N.eqb_spec a b)
           end; lia. }
  repeat (constructor; [apply Hdigit|]). constructor.
Qed.

(** Both senders attach [timestamp] and [sign] together, and only when
    [FEISHU_SIGN_SECRET] is set; the timestamp is the second in which the
    clock stands, and the signature is the one of that timestamp. *)
Theorem senders_sign cfg w (m : message) :
  msg (sign_payload cfg w m) = m
  /\ (FEISHU_SIGN_SECRET cfg = [] ->
      timestamp (sign_payload cfg w m) = None /\ sign (sign_payload cfg w m) = None)
  /\ (FEISHU_SIGN_SECRET cfg <> [] ->
      exists seconds : Z,
        (1000 * seconds <= Date_now w < 1000 * seconds + 1000)%Z
        /\ timestamp (sign_payload cfg w m) = Some (decimal seconds)
        /\ sign (sign_payload cfg w m)
           = Some (feishuSign (decimal seconds) (FEISHU_SIGN_SECRET cfg))).
Proof.
  split; [apply msg_sign_payload|]. unfold sign_payload. split; intros H.
  - now rewrite bool_decide_eq_true_2.
  - rewrite bool_decide_eq_false_2 by assumption.
    exists (Date_now w / 1000)%Z. split; [|split; reflexivity].
    pose proof (Z.div_mod (Date_now w) 1000 ltac:(lia)).
    pose proof (Z.mod_pos_bound (Date_now w) 1000 ltac:(lia)). lia.
Qed.

(** A configuration that signs. *)
Definition signing_cfg : config :=
  Config (Some docs_secret) (Some feishu_url) (lit "s3") ∅ (plain_object ∅).

Lemma senders_sign_witness :
  exists seconds : Z,
    (1000 * seconds <= 1700000000123 < 1000 * seconds + 1000)%Z
    /\ timestamp (sign_payload signing_cfg
                    a_world (msg_text (lit "hello")))
       = Some (decimal seconds)
    /\ sign (sign_payload signing_cfg
               a_world (msg_text (lit "hello")))
       = Some (feishuSign (decimal seconds) (lit "s3")).
Proof.
  apply (senders_sign signing_cfg
           a_world (msg_text (lit "hello"))).
  discriminate.
Defined.

(** How a call of a sender ends. *)
Definition delivery_outcome (w : world) : result unit :=
  match downstream w with
  | fetch_rejects e => Throw e
  | fetch_resolves status body =>
      if resp_ok status then Ok tt
      else Throw (Error (lit "Feishu webhook failed: " ++ decimal status ++ lit " "
                         ++ match body with Some b => b | None => [] end))
  end.

(** [sendFeishuText] and [sendFeishuPost] make one POST to the configured
    URL, whatever comes of it, and end well exactly when the downstream
    webhook answers with a status from 200 to 299; a rejected [fetch] is raised
    as it is, another status as an [Error] that names the status and the body
    of the answer, the empty string when the body cannot be read. *)
Theorem senders_outcome cfg w (text0 title : jstr) (contentLines : list segment) :
  sendFeishuText cfg w text0
  = ([fetch_post (FEISHU_WEBHOOK_URL cfg) (sign_payload cfg w (msg_text text0))],
     delivery_outcome w)
  /\ sendFeishuPost cfg w title contentLines
     = ([fetch_post (FEISHU_WEBHOOK_URL cfg)
           (sign_payload cfg w (msg_post title contentLines))],
        delivery_outcome w)
  /\ (delivery_outcome w = Ok tt
      <-> exists status body,
            downstream w = fetch_resolves status body /\ (200 <= status <= 299)%Z).
Proof.
  unfold sendFeishuText, sendFeishuPost, send, delivery_outcome.
  rewrite !bind_perform.
  split; [|split].
  - destruct (downstream w) as [e|status body]; [reflexivity|].
    now destruct (resp_ok status).
  - destruct (downstream w) as [e|status body]; [reflexivity|].
    now destruct (resp_ok status).
  - unfold resp_ok. destruct (downstream w) as [e|status body].
    { split; [discriminate|]. now intros (? & ? & [=] & _). }
    destruct (Z.leb_spec 200 status), (Z.leb_spec status 299); cbn [andb].
    + split; [|reflexivity]. intros _. exists status, body. split; [reflexivity|lia].
    + split; [discriminate|]. intros (? & ? & [= <- <-] & ?). lia.
    + split; [discriminate|]. intros (? & ? & [= <- <-] & ?). lia.
    + split; [discriminate|]. intros (? & ? & [= <- <-] & ?). lia.
Qed.

(** ** What every run of the handler keeps *)

(** The responses of a run. *)
Fixpoint responses (t : list effect) : list (Z * jstr) :=
  match t with
  | [] => []
  | respond status body :: t' => (status, body) :: responses t'
  | _ :: t' => responses t'
  end.

Lemma responses_delivery_log w : responses (delivery_log w) = [].
Proof.
  unfold delivery_log. destruct (downstream w) as [e|status body]; [reflexivity|].
  now destruct (resp_ok status).
Qed.

(** The six answers of the handler. *)
Definition answers : list (Z * jstr) :=
  [(500%Z, lit "Server not configured"); (401%Z, lit "Invalid signature");
   (400%Z, lit "Bad JSON"); (200%Z, lit "Ignored repo"); (200%Z, lit "Ignored event");
   (202%Z, lit "Accepted")].

(** A run that ends well has sent one response, one of six fixed answers
    that hold nothing of the request; it has made one POST when the answer is
    202 and none otherwise. *)
Theorem webhook_responds_once JSON_parse cfg w req :
  snd (webhook JSON_parse cfg w req) = Ok tt ->
  exists answer,
    responses (fst (webhook JSON_parse cfg w req)) = [answer]
    /\ answer ∈ answers
    /\ length (posts (fst (webhook JSON_parse cfg w req)))
       = if bool_decide (answer = (202%Z, lit "Accepted")) then 1 else 0.
Proof.
  rewrite webhook_eq. unfold webhook_runs, answers.
  destruct (unset _ || unset _).
  { intros _. eexists. repeat split. set_solver. }
  destruct (verifyGitHubSignature cfg req) as [[|]|e]; [| |discriminate].
  2: { intros _. eexists. repeat split. set_solver. }
  destruct (JSON_parse (raw_body req)) as [parsed|].
  2: { intros _. eexists. repeat split. set_solver. }
  cbv zeta. destruct (negb (allowed _ _)).
  { intros _. eexists. repeat split. set_solver. }
  unfold issues_closed_runs, issue_comment_created_runs.
  destruct (is_issues_closed _ _).
  { destruct (closed_lookup _ _) as [[key feishuUserId]|]; [|discriminate].
    destruct (closed_lines _ _); [|discriminate].
    destruct (closed_title _); [|discriminate]. intros _. eexists.
    unfold closed_log.
    cbn [fst responses posts]. rewrite responses_delivery_log, posts_delivery_log.
    repeat split. set_solver. }
  destruct (is_comment_created _ _).
  { destruct (comment_text _ _); [|discriminate]. intros _. eexists.
    cbn [fst responses posts]. rewrite responses_delivery_log, posts_delivery_log.
    repeat split. set_solver. }
  intros _. eexists. repeat split. set_solver.
Qed.

Lemma webhook_responds_once_witness :
  exists answer,
    responses (fst (webhook example_parse docs_cfg a_world
                      (signed_request docs_secret "issues" "d-1" closed_body))) = [answer]
    /\ answer ∈ answers
    /\ length (posts (fst (webhook example_parse docs_cfg a_world
                             (signed_request docs_secret "issues" "d-1" closed_body))))
       = if bool_decide (answer = (202%Z, lit "Accepted")) then 1 else 0.
Proof.
  apply (webhook_responds_once example_parse docs_cfg a_world
           (signed_request docs_secret "issues" "d-1" closed_body)).
  vm_compute. reflexivity.
Defined.

(** A run that raises has made no POST.  The error is a [RangeError], from
    the comparison of the signature, or a [TypeError], from the signing of a
    body that has not been captured or from the rendering.  Before it, the
    run has done nothing, or, in the branch of a closed issue, it has written
    its line on the console, or written the line and sent the response 202. *)
Theorem webhook_raises_before_post JSON_parse cfg w req e :
  snd (webhook JSON_parse cfg w req) = Throw e ->
  let done := fst (webhook JSON_parse cfg w req) in
  posts done = []
  /\ (e = RangeError \/ e = TypeError)
  /\ (done = []
      \/ exists key feishuUserId,
           done = [closed_log key feishuUserId]
           \/ done = [closed_log key feishuUserId; respond 202 (lit "Accepted")]).
Proof.
  rewrite webhook_eq. unfold webhook_runs.
  destruct (unset _ || unset _) eqn:Hcfg; [discriminate|].
  destruct (verifyGitHubSignature cfg req) as [[|]|e'] eqn:Hsig; [|discriminate|].
  2: { intros [= <-]. cbn. split; [reflexivity|]. split; [|now left].
       apply orb_false_iff in Hcfg as [Hsecret _].
       destruct (GITHUB_WEBHOOK_SECRET cfg) as [secret|] eqn:Hs; [|discriminate].
       rewrite (verify_cases _ _ _ Hs) in Hsig. cbv zeta in Hsig.
       destruct (req_body req); [|injection Hsig as <-; now right].
       destruct (bool_decide _); [|discriminate].
       destruct (all_ascii _); [discriminate|]. injection Hsig as <-. now left. }
  destruct (JSON_parse (raw_body req)) as [parsed|]; [|discriminate].
  cbv zeta. destruct (negb (allowed _ _)); [discriminate|].
  unfold issues_closed_runs, issue_comment_created_runs.
  destruct (is_issues_closed _ _).
  { destruct (closed_lookup _ _) as [[key feishuUserId]|].
    2: { intros [= <-]. cbn. auto. }
    destruct (closed_lines _ _).
    2: { intros [= <-]. cbn. split; [reflexivity|]. split; [now right|]. right. eauto. }
    destruct (closed_title _); [discriminate|].
    intros [= <-]. cbn. split; [reflexivity|]. split; [now right|]. right. eauto. }
  destruct (is_comment_created _ _); [|discriminate].
  destruct (comment_text _ _); [discriminate|]. intros [= <-]. cbn. auto.
Qed.

Lemma webhook_raises_before_post_witness :
  let done := fst (webhook example_parse docs_cfg a_world
                     (signed_request docs_secret "issues" "d-1" unprintable_body)) in
  posts done = []
  /\ (TypeError = RangeError \/ TypeError = TypeError)
  /\ (done = []
      \/ exists key feishuUserId,
           done = [closed_log key feishuUserId]
           \/ done = [closed_log key feishuUserId; respond 202 (lit "Accepted")]).
Proof.
  apply (webhook_raises_before_post example_parse docs_cfg a_world
           (signed_request docs_secret "issues" "d-1" unprintable_body) TypeError).
  vm_compute. reflexivity.
Defined.

(** Without the expected signature nothing leaves the handler but the
    answer 500 or 401: no POST is made and the payload is neither parsed nor
    logged, also when the check raises, a [RangeError] from the comparison or
    a [TypeError] from the signing of a body that has not been captured. *)
Theorem unsigned_request_stops JSON_parse cfg w req :
  signature_valid cfg req = false ->
  fst (webhook JSON_parse cfg w req) = [respond 500 (lit "Server not configured")]
  \/ fst (webhook JSON_parse cfg w req) = [respond 401 (lit "Invalid signature")]
  \/ webhook JSON_parse cfg w req = ([], Throw RangeError)
  \/ (req_body req = not_captured /\ webhook JSON_parse cfg w req = ([], Throw TypeError)).
Proof.
  intros Hvalid. rewrite webhook_eq. unfold webhook_runs.
  destruct (unset _ || unset _) eqn:Hcfg; [now left|].
  apply orb_false_iff in Hcfg as [Hsecret _].
  unfold signature_valid in Hvalid.
  destruct (GITHUB_WEBHOOK_SECRET cfg) as [secret|] eqn:Hs; [|discriminate].
  rewrite (verify_cases _ _ _ Hs). cbv zeta.
  destruct (req_body req) as [body|]; [|now right; right; right].
  apply bool_decide_eq_false in Hvalid.
  destruct (bool_decide (length _ = 71)); [|right; left; reflexivity].
  destruct (all_ascii _); [|right; right; left; reflexivity].
  case_bool_decide as Heq; [|right; left; reflexivity].
  exfalso. apply Hvalid.
  destruct (X_Hub_Signature_256 req) as [sig|]; simpl in Heq; [now f_equal|].
  symmetry in Heq. apply (f_equal length) in Heq.
  rewrite length_expected_signature in Heq. discriminate.
Qed.

Lemma unsigned_request_stops_witness :
  let req := Request (Some mutated_ascii) (Some (lit "issues")) None closed_body in
  fst (webhook example_parse docs_cfg a_world req)
  = [respond 500 (lit "Server not configured")]
  \/ fst (webhook example_parse docs_cfg a_world req)
     = [respond 401 (lit "Invalid signature")]
  \/ webhook example_parse docs_cfg a_world req = ([], Throw RangeError)
  \/ (req_body req = not_captured
      /\ webhook example_parse docs_cfg a_world req = ([], Throw TypeError)).
Proof.
  apply (unsigned_request_stops example_parse docs_cfg a_world).
  vm_compute. reflexivity.
Defined.

(** ** The message of a closed issue *)

(** An accepted [issues] / [closed] event whose values can be rendered is
    sent as a post, not as a text: the title is the check mark and the
    repository name in brackets, and the content is the line of the issue
    number, the line of the title, the link to the issue and the line of the
    sender, in this order, followed by nothing or by a line feed and one
    mention. *)
Theorem closed_issue_post JSON_parse (cfg : config) (w : world) (req : request)
    (parsed : json) (lookup : jstr * value)
    (repo_text number_text title_text sender_text : jstr) :
  unset (GITHUB_WEBHOOK_SECRET cfg) || unset (FEISHU_WEBHOOK_URL cfg) = false ->
  verifyGitHubSignature cfg req = Ok true ->
  JSON_parse (raw_body req) = Some parsed ->
  allowed (repo_of (J parsed)) (ALLOWED_REPOS cfg) = true ->
  is_issues_closed (header_or_empty (X_GitHub_Event req)) (J parsed) = true ->
  let issue := get_opt (J parsed) Key.issue in
  closed_lookup cfg (J parsed) = Ok lookup ->
  to_string (get_opt issue Key.number) = Ok number_text ->
  to_string (get_opt issue Key.title) = Ok title_text ->
  to_string (or_else (get_opt (get_opt (J parsed) Key.sender) Key.login)
               (str (lit "unknown"))) = Ok sender_text ->
  to_string (repo_of (J parsed)) = Ok repo_text ->
  exists tail,
    map msg (posts (fst (webhook JSON_parse cfg w req)))
    = [msg_post (check_mark ++ lit " [" ++ repo_text ++ lit "]")
         ([text_segment (lit "Issue #" ++ number_text ++ lit " " ++ zh_closed ++ LF);
           text_segment (title_text ++ LF);
           a_segment zh_details (get_opt issue Key.html_url);
           text_segment (LF ++ lit "by " ++ sender_text)]
          ++ tail)]
    /\ (tail = [] \/ exists user_id user_name,
                       tail = [text_segment LF; at_segment user_id user_name]).
Proof.
  intros Hcfg Hsig Hparse Hrepo Hclosed issue Hlookup Hn Ht Hs Hr.
  rewrite webhook_eq. unfold webhook_runs.
  rewrite Hcfg, Hsig, Hparse, Hrepo, Hclosed. cbv zeta. cbn [negb].
  unfold issues_closed_runs, closed_lines, attribution, closed_title. cbv zeta.
  fold issue. destruct lookup as [key feishuUserId].
  rewrite Hlookup, Hn, Ht, Hs, Hr. cbn [and_then]. unfold closed_log.
  cbn [fst posts]. rewrite posts_delivery_log. cbn [map]. rewrite msg_sign_payload.
  eexists. split; [reflexivity|].
  unfold mention. destruct (truthy _); eauto.
Qed.

Lemma closed_issue_post_witness :
  exists tail,
    map msg (posts (fst (webhook example_parse docs_cfg a_world
                           (signed_request docs_secret "issues" "d-1" anonymous_body))))
    = [msg_post (check_mark ++ lit " [" ++ lit "octo/repo" ++ lit "]")
         ([text_segment (lit "Issue #" ++ lit "7" ++ lit " " ++ zh_closed ++ LF);
           text_segment (lit "Crash on start" ++ LF);
           a_segment zh_details (str (lit "https://github.com/octo/repo/issues/7"));
           text_segment (LF ++ lit "by " ++ lit "bob")]
          ++ tail)]
    /\ (tail = [] \/ exists user_id user_name,
                       tail = [text_segment LF; at_segment user_id user_name]).
Proof.
  apply (closed_issue_post example_parse docs_cfg a_world
           (signed_request docs_secret "issues" "d-1" anonymous_body) anonymous_payload
           ([], undefined));
    vm_compute; reflexivity.
Defined.

(** With a mapping that is a plain object, and values that can be rendered:
    an opener whom the mapping maps to an object is mentioned in the last
    segment, with the [id] and the [name] of the object; the entry of the
    mapping comes before what a plain object inherits.  An opener who is not
    mapped, and whose login is no property name of [Object.prototype], is not
    mentioned. *)
Theorem mention_of_opener (cfg : config) (w : world) (repo payload : value)
    (own : gmap jstr json) (key title : jstr) (lines : list segment) :
  nullish payload = false ->
  nullish (get_opt payload Key.issue) = false ->
  USER_MAPPING cfg = plain_object own ->
  to_string (opener_of payload) = Ok key ->
  closed_lines payload (lookup_object own key) = Ok lines ->
  closed_title repo = Ok title ->
  map msg (posts (fst (issues_closed cfg w repo payload))) = [msg_post title lines]
  /\ (forall fields,
        own !! key = Some (JObj fields) ->
        last lines = Some (at_segment (own_property fields (lit "id"))
                                      (own_property fields (lit "name"))))
  /\ (own !! key = None -> inherited key = undefined -> existsb is_at lines = false).
Proof.
  intros Hp Hi Hm Hkey Hlines Htitle. rewrite issues_closed_run by assumption.
  unfold issues_closed_runs, closed_lookup. rewrite Hi, Hkey, Hm. cbn [and_then lookup_mapping].
  rewrite Hlines, Htitle. unfold closed_log.
  cbn [fst posts]. rewrite posts_delivery_log. cbn [map]. rewrite msg_sign_payload.
  split; [reflexivity|].
  unfold closed_lines in Hlines. cbv zeta in Hlines.
  destruct (to_string (get_opt (get_opt payload Key.issue) Key.number)); [|discriminate].
  destruct (to_string (get_opt (get_opt payload Key.issue) Key.title)); [|discriminate].
  destruct (attribution _); [|discriminate].
  cbn [and_then] in Hlines. injection Hlines as <-.
  unfold mention, lookup_object. split.
  - intros fields ->. reflexivity.
  - intros -> ->. reflexivity.
Qed.

(** A mapping with an entry for [constructor], and the closed issue of the
    examples, which [constructor] opened. *)
Definition mapped_cfg : config :=
  Config (Some docs_secret) (Some feishu_url) [] ∅
    (plain_object
       {[ lit "constructor" := JObj [field "id" (text "ou_7"); field "name" (text "Connie")] ]}).

Lemma mention_of_opener_witness :
  exists title lines,
    map msg (posts (fst (issues_closed mapped_cfg a_world (str (lit "octo/repo"))
                           (J closed_payload))))
    = [msg_post title lines]
    /\ last lines = Some (at_segment (str (lit "ou_7")) (str (lit "Connie"))).
Proof.
  eexists _, _.
  destruct (mention_of_opener mapped_cfg a_world (str (lit "octo/repo")) (J closed_payload)
              _ _ _ _ eq_refl eq_refl eq_refl eq_refl eq_refl eq_refl)
    as (Hmsg & Hmapped & _).
  split; [exact Hmsg|].
  apply (Hmapped [field "id" (text "ou_7"); field "name" (text "Connie")]).
  vm_compute. reflexivity.
Defined.

(** ** The earlier version of the handler

    The second source file is an earlier [main.js]: the same
    [verifyGitHubSignature], [feishuSign] and [sendFeishuText], no identity
    mapping and no [sendFeishuPost], and a handler that knows the pair
    [issues] / [closed] only and writes the delivery identifier into its
    text. *)

Module Earlier.

Section Handler.

Variable JSON_parse : bytes -> option json.

Variable cfg : config.

Definition issues_closed (w : world) (deliveryId : jstr) (repo payload : value)
    : action unit :=
  (let* issue := lift (get payload Key.issue) in
   let* repo_text := lift (to_string repo) in
   let* number := lift (get issue Key.number) in
   let* number_text := lift (to_string number) in
   let* title := lift (get issue Key.title) in
   let* title_text := lift (to_string title) in
   let* html_url := lift (get issue Key.html_url) in
   let* html_url_text := lift (to_string html_url) in
   let* sender := lift (get payload Key.sender) in
   let* sender_text :=
     lift (to_string (or_else (get_opt sender Key.login) (str (lit "unknown")))) in
   let text :=
     check_mark ++ lit " [" ++ repo_text ++ lit "] Issue #" ++ number_text
       ++ lit " closed" ++ LF
       ++ title_text ++ LF
       ++ html_url_text ++ LF
       ++ lit "by " ++ sender_text ++ LF
       ++ lit "(delivery " ++ deliveryId ++ lit ")" in
   perform (respond 202 (lit "Accepted")) ;;
   catch (sendFeishuText cfg w text) log_failure)%action.

Definition webhook (w : world) (req : request) : action unit :=
  (if unset (GITHUB_WEBHOOK_SECRET cfg) || unset (FEISHU_WEBHOOK_URL cfg) then
     perform (respond 500 (lit "Server not configured"))
   else
     let* valid := lift (verifyGitHubSignature cfg req) in
     if negb valid then perform (respond 401 (lit "Invalid signature"))
     else
       let event := header_or_empty (X_GitHub_Event req) in
       let deliveryId := header_or_empty (X_GitHub_Delivery req) in
       match parse_body JSON_parse (req_body req) with
       | None => perform (respond 400 (lit "Bad JSON"))
       | Some parsed =>
           let payload := J parsed in
           let repo :=
             or_else (get_opt (get_opt payload Key.repository) Key.full_name) (str []) in
           if negb (allowed repo (ALLOWED_REPOS cfg)) then
             perform (respond 200 (lit "Ignored repo"))
           else if bool_decide (event = lit "issues")
                   && is_str (get_opt payload Key.action) (lit "closed") then
             issues_closed w deliveryId repo payload
           else
             perform (respond 200 (lit "Ignored event"))
       end)%action.

End Handler.

(** The text of a closed issue up to the line of the delivery. *)
Definition closed_heading (repo payload : value) : result jstr :=
  let issue := get_opt payload Key.issue in
  if nullish issue then Throw TypeError
  else
    (let+ repo_text := to_string repo in
     let+ number_text := to_string (get_opt issue Key.number) in
     let+ title_text := to_string (get_opt issue Key.title) in
     let+ html_url_text := to_string (get_opt issue Key.html_url) in
     let+ sender_text := attribution (get_opt payload Key.sender) in
     Ok (check_mark ++ lit " [" ++ repo_text ++ lit "] Issue #" ++ number_text
         ++ lit " closed" ++ LF
         ++ title_text ++ LF
         ++ html_url_text ++ LF
         ++ lit "by " ++ sender_text ++ LF))%result.

(** The runs of the branch: it raises before it has done anything, or it
    gets to the POST. *)
Definition issues_closed_runs (cfg : config) (w : world) (deliveryId : jstr)
    (repo payload : value) : action unit :=
  match closed_heading repo payload with
  | Throw _ => ([], Throw TypeError)
  | Ok heading =>
      (respond 202 (lit "Accepted")
         :: fetch_post (FEISHU_WEBHOOK_URL cfg)
              (sign_payload cfg w
                 (msg_text (heading ++ lit "(delivery " ++ deliveryId ++ lit ")")))
         :: delivery_log w,
       Ok tt)
  end.

Lemma earlier_issues_closed_run cfg w deliveryId repo payload :
  nullish payload = false ->
  issues_closed cfg w deliveryId repo payload
  = issues_closed_runs cfg w deliveryId repo payload.
Proof.
  intros Hp. unfold issues_closed, issues_closed_runs, closed_heading, attribution.
  rewrite !(get_defined payload) by assumption. rewrite !bind_lift_Ok. cbv zeta.
  destruct (nullish (get_opt payload Key.issue)) eqn:Hi.
  { destruct (to_string repo) eqn:Hr; [now rewrite bind_lift_Ok, (get_nullish _ _ Hi)|now raised]. }
  rewrite !(get_defined (get_opt payload Key.issue)) by assumption.
  destruct (to_string repo) as [repo_text|e] eqn:Hr; [|now raised].
  rewrite !bind_lift_Ok. cbn [and_then].
  destruct (to_string (get_opt (get_opt payload Key.issue) Key.number))
    as [number_text|e] eqn:Hn; [|now raised].
  rewrite !bind_lift_Ok. cbn [and_then].
  destruct (to_string (get_opt (get_opt payload Key.issue) Key.title))
    as [title_text|e] eqn:Ht; [|now raised].
  rewrite !bind_lift_Ok. cbn [and_then].
  destruct (to_string (get_opt (get_opt payload Key.issue) Key.html_url))
    as [url|e] eqn:Hurl; [|now raised].
  rewrite !bind_lift_Ok. cbn [and_then].
  destruct (to_string (or_else (get_opt (get_opt payload Key.sender) Key.login) _))
    as [sender_text|e] eqn:Hs; [|now raised].
  rewrite !bind_lift_Ok. cbn [and_then].
  rewrite bind_perform. unfold sendFeishuText. rewrite send_caught. cbn [fst snd].
  repeat rewrite <- app_assoc. reflexivity.
Qed.

(** The runs of the earlier handler, stage by stage. *)
Definition webhook_runs (JSON_parse : bytes -> option json)
    (cfg : config) (w : world) (req : request) : action unit :=
  if unset (GITHUB_WEBHOOK_SECRET cfg) || unset (FEISHU_WEBHOOK_URL cfg) then
    ([respond 500 (lit "Server not configured")], Ok tt)
  else
    match verifyGitHubSignature cfg req with
    | Throw e => ([], Throw e)
    | Ok false => ([respond 401 (lit "Invalid signature")], Ok tt)
    | Ok true =>
        match JSON_parse (raw_body req) with
        | None => ([respond 400 (lit "Bad JSON")], Ok tt)
        | Some parsed =>
            let payload := J parsed in
            if negb (allowed (repo_of payload) (ALLOWED_REPOS cfg)) then
              ([respond 200 (lit "Ignored repo")], Ok tt)
            else if is_issues_closed (header_or_empty (X_GitHub_Event req)) payload then
              issues_closed_runs cfg w (header_or_empty (X_GitHub_Delivery req))
                (repo_of payload) payload
            else ([respond 200 (lit "Ignored event")], Ok tt)
        end
    end.

Lemma earlier_webhook_eq JSON_parse cfg w req :
  webhook JSON_parse cfg w req = webhook_runs JSON_parse cfg w req.
Proof.
  unfold webhook, webhook_runs.
  destruct (unset _ || unset _); [reflexivity|].
  destruct (verifyGitHubSignature cfg req) as [[|]|e] eqn:Hsig; try reflexivity.
  rewrite bind_lift_Ok. cbn [negb].
  rewrite (verify_Ok_captured _ _ _ Hsig). cbn [parse_body].
  destruct (JSON_parse (raw_body req)) as [parsed|]; [|reflexivity].
  cbv zeta. fold (repo_of (J parsed)).
  destruct (negb (allowed _ _)); [reflexivity|].
  fold (is_issues_closed (header_or_empty (X_GitHub_Event req)) (J parsed)).
  destruct (is_issues_closed _ _) eqn:Hclosed; [|reflexivity].
  apply andb_true_iff in Hclosed as [_ Hobj]. apply is_str_object in Hobj.
  now apply earlier_issues_closed_run.
Qed.

End Earlier.

(** In the earlier version the delivery identifier is the last line of the
    text: two accepted deliveries that differ in it at most are answered
    alike, each with one POST, and their texts are the same exactly when the
    identifiers are (a missing identifier counting as the empty one). *)
Theorem earlier_delivery_in_text JSON_parse cfg req d1 d2 w1 w2 :
  fst <$> response (Earlier.webhook JSON_parse cfg w1 (with_delivery d1 req)) = Some 202%Z ->
  exists heading,
    map msg (posts (fst (Earlier.webhook JSON_parse cfg w1 (with_delivery d1 req))))
    = [msg_text (heading ++ lit "(delivery " ++ header_or_empty d1 ++ lit ")")]
    /\ map msg (posts (fst (Earlier.webhook JSON_parse cfg w2 (with_delivery d2 req))))
       = [msg_text (heading ++ lit "(delivery " ++ header_or_empty d2 ++ lit ")")]
    /\ response (Earlier.webhook JSON_parse cfg w2 (with_delivery d2 req))
       = response (Earlier.webhook JSON_parse cfg w1 (with_delivery d1 req))
    /\ (map msg (posts (fst (Earlier.webhook JSON_parse cfg w1 (with_delivery d1 req))))
        = map msg (posts (fst (Earlier.webhook JSON_parse cfg w2 (with_delivery d2 req))))
        <-> header_or_empty d1 = header_or_empty d2).
Proof.
  rewrite !Earlier.earlier_webhook_eq. unfold Earlier.webhook_runs, response.
  change (verifyGitHubSignature cfg (with_delivery d2 req))
    with (verifyGitHubSignature cfg (with_delivery d1 req)).
  change (raw_body (with_delivery d1 req)) with (raw_body req).
  change (raw_body (with_delivery d2 req)) with (raw_body req).
  cbn [with_delivery X_GitHub_Event X_GitHub_Delivery].
  destruct (unset _ || unset _); [discriminate|].
  destruct (verifyGitHubSignature cfg (with_delivery d1 req)) as [[|]|e];
    try discriminate.
  destruct (JSON_parse (raw_body req)) as [parsed|]; [|discriminate].
  cbv zeta. destruct (negb (allowed _ _)); [discriminate|].
  destruct (is_issues_closed _ _); [|discriminate].
  unfold Earlier.issues_closed_runs.
  destruct (Earlier.closed_heading _ _) as [heading|]; [|discriminate]. intros _.
  cbn [fst posts first_response]. rewrite !posts_delivery_log. cbn [map].
  rewrite !msg_sign_payload.
  exists heading.
  split; [reflexivity|]. split; [reflexivity|]. split; [reflexivity|].
  generalize (lit "(delivery "), (lit ")"),
    (header_or_empty d1), (header_or_empty d2).
  intros opening closing a b. split.
  - intros H. assert (H' : heading ++ opening ++ a ++ closing
                          = heading ++ opening ++ b ++ closing) by congruence.
    do 2 apply app_inv_head in H'. now apply app_inv_tail in H'.
  - now intros ->.
Qed.

(** A signed [issues] / [closed] event of the examples, with the delivery
    identifier of the request. *)
Lemma earlier_delivery_in_text_witness :
  let req := signed_request docs_secret "issues" "d-1" closed_body in
  exists heading,
    map msg (posts (fst (Earlier.webhook example_parse docs_cfg a_world
                           (with_delivery (Some (lit "d-1")) req))))
    = [msg_text (heading ++ lit "(delivery " ++ lit "d-1" ++ lit ")")]
    /\ map msg (posts (fst (Earlier.webhook example_parse docs_cfg a_world
                              (with_delivery None req))))
       = [msg_text (heading ++ lit "(delivery " ++ [] ++ lit ")")]
    /\ response (Earlier.webhook example_parse docs_cfg a_world (with_delivery None req))
       = response (Earlier.webhook example_parse docs_cfg a_world
                     (with_delivery (Some (lit "d-1")) req))
    /\ (map msg (posts (fst (Earlier.webhook example_parse docs_cfg a_world
                               (with_delivery (Some (lit "d-1")) req))))
        = map msg (posts (fst (Earlier.webhook example_parse docs_cfg a_world
                                 (with_delivery None req))))
        <-> lit "d-1" = []).
Proof.
  intros req.
  apply (earlier_delivery_in_text example_parse docs_cfg req (Some (lit "d-1")) None
           a_world a_world).
  vm_compute. reflexivity.
Defined.

(** The earlier version knows one pair: every other event of an allowed
    repository, a new comment among them, is answered with 200 and nothing
    else happens. *)
Theorem earlier_other_events_ignored JSON_parse cfg w req parsed :
  unset (GITHUB_WEBHOOK_SECRET cfg) || unset (FEISHU_WEBHOOK_URL cfg) = false ->
  verifyGitHubSignature cfg req = Ok true ->
  JSON_parse (raw_body req) = Some parsed ->
  allowed (repo_of (J parsed)) (ALLOWED_REPOS cfg) = true ->
  is_issues_closed (header_or_empty (X_GitHub_Event req)) (J parsed) = false ->
  Earlier.webhook JSON_parse cfg w req = ([respond 200 (lit "Ignored event")], Ok tt).
Proof.
  intros Hcfg Hsig Hparse Hrepo Hclosed.
  rewrite Earlier.earlier_webhook_eq. unfold Earlier.webhook_runs.
  now rewrite Hcfg, Hsig, Hparse, Hrepo, Hclosed.
Qed.

Lemma earlier_other_events_ignored_witness :
  Earlier.webhook example_parse docs_cfg a_world
    (signed_request docs_secret "issue_comment" "d-1" (created_body 250))
  = ([respond 200 (lit "Ignored event")], Ok tt).
Proof.
  apply (earlier_other_events_ignored example_parse docs_cfg a_world _ (created_payload 250));
    vm_compute; reflexivity.
Defined.

(** On a request that is neither a closed issue nor a new comment, the two
    versions answer alike, end alike, and make no POST; the later version
    differs in the line that it writes on the console for an event that it
    ignores. *)
Theorem versions_agree JSON_parse cfg w req :
  (forall parsed, JSON_parse (raw_body req) = Some parsed ->
     recognized (header_or_empty (X_GitHub_Event req)) (J parsed) = false) ->
  response (Earlier.webhook JSON_parse cfg w req) = response (webhook JSON_parse cfg w req)
  /\ snd (Earlier.webhook JSON_parse cfg w req) = snd (webhook JSON_parse cfg w req)
  /\ posts (fst (Earlier.webhook JSON_parse cfg w req)) = []
  /\ posts (fst (webhook JSON_parse cfg w req)) = [].
Proof.
  intros Hnot. rewrite Earlier.earlier_webhook_eq, webhook_eq.
  unfold Earlier.webhook_runs, webhook_runs, response.
  destruct (unset _ || unset _); [now repeat split|].
  destruct (verifyGitHubSignature cfg req) as [[|]|e]; try now repeat split.
  destruct (JSON_parse (raw_body req)) as [parsed|]; [|now repeat split].
  specialize (Hnot parsed eq_refl). unfold recognized in Hnot.
  apply orb_false_iff in Hnot as [-> ->]. cbv zeta.
  destruct (negb (allowed _ _)); now repeat split.
Qed.

Lemma versions_agree_witness :
  let req := signed_request docs_secret "push" "d-1" closed_body in
  response (Earlier.webhook example_parse docs_cfg a_world req)
  = response (webhook example_parse docs_cfg a_world req)
  /\ snd (Earlier.webhook example_parse docs_cfg a_world req)
     = snd (webhook example_parse docs_cfg a_world req)
  /\ posts (fst (Earlier.webhook example_parse docs_cfg a_world req)) = []
  /\ posts (fst (webhook example_parse docs_cfg a_world req)) = [].
Proof.
  intros req. apply (versions_agree example_parse docs_cfg a_world req).
  intros parsed Hp. vm_compute in Hp. injection Hp as <-. vm_compute. reflexivity.
Defined.
